(** * Research_AI: the phase schemas, the search tools, the workflow and the
      run-workflow tool, embedded from the TypeScript sources.

    - [Js]             JavaScript values as the sources use them: JSON data,
                       promises that resolve or reject, [String.prototype.trim],
                       [Array.prototype.slice].
    - [Zod]            the fragment of zod the schemas are written in, with its
                       parser.
    - [PhaseAgents]    src/mastra/agents/phase-agents.ts
    - [SearchTools]    src/mastra/tools/search-tools.ts
    - [Workflows]      src/mastra/workflows/research-execution-workflow.ts
    - [ResearchAgent]  src/mastra/agents/research-agent.ts
    - [Samples], [Properties]  sample data and the notions the properties
                       are stated with; the lemmas and theorems follow. *)

From Stdlib Require Import String Ascii List Bool ZArith QArith Qround Lia.
Import ListNotations.
Close Scope Q_scope.
Open Scope string_scope.
Set Warnings "-register-all".

(* ================================================================== *)
(** * JavaScript values *)
(* ================================================================== *)

Module Js.

(** A JSON value.  Numbers are the finite ones, by their exact rational
    value: every finite double is a rational, and [<], [<=] and [===] on
    finite doubles agree with the order and equality of their values.
    Strings are sequences of code units below 256 (a character beyond
    Latin-1 in a literal of the sources stands as its UTF-8 bytes; no
    length or comparison below depends on one).  An object is the list
    of its own properties in insertion order; a property that is absent
    reads as [undefined], which is [None] wherever a value is optional. *)
Inductive json : Type :=
| JNull
| JBool (b : bool)
| JNum (q : Q)
| JStr (s : string)
| JArr (items : list json)
| JObj (props : list (string * json)).

(** [o[k]] on a property list: the first property named [k]. *)
Fixpoint lookup {A : Type} (k : string) (props : list (string * A)) : option A :=
  match props with
  | [] => None
  | (k', v) :: rest => if String.eqb k k' then Some v else lookup k rest
  end.

Definition has_key {A : Type} (k : string) (props : list (string * A)) : bool :=
  match lookup k props with Some _ => true | None => false end.

(** [o[k] = v]: an existing property keeps its place, a new one is added
    last. *)
Fixpoint set_prop {A : Type} (k : string) (v : A) (props : list (string * A))
  : list (string * A) :=
  match props with
  | [] => [(k, v)]
  | (k', v') :: rest =>
      if String.eqb k k' then (k', v) :: rest else (k', v') :: set_prop k v rest
  end.

(** [{ ...base, ...aug }]: the keys of [base] in their order, each with the
    value [aug] gives it when [aug] has the key, then the keys only [aug]
    has. *)
Definition spread {A : Type} (base aug : list (string * A)) : list (string * A) :=
  map (fun kv => (fst kv, match lookup (fst kv) aug with
                          | Some v => v
                          | None => snd kv
                          end)) base
  ++ filter (fun kv => negb (has_key (fst kv) base)) aug.

(** Property access on a value: [v.k], [undefined] when [v] is not an
    object or has no such property. *)
Definition get (k : string) (v : json) : option json :=
  match v with
  | JObj props => lookup k props
  | _ => None
  end.

(** [a === b] for the primitive values a zod literal can hold. *)
Definition strict_eq (a b : json) : bool :=
  match a, b with
  | JNull, JNull => true
  | JBool x, JBool y => Bool.eqb x y
  | JNum x, JNum y => Qeq_bool x y
  | JStr x, JStr y => String.eqb x y
  | _, _ => false
  end.

(** An awaited promise: it resolves with a value or rejects with an error,
    kept as the text [e instanceof Error ? e.message : String(e)] yields. *)
Inductive Await (A : Type) : Type :=
| Resolved (a : A)
| Rejected (message : string).
Arguments Resolved {A} a.
Arguments Rejected {A} message.

(** White space and line terminators among the code units below 256:
    TAB, LF, VT, FF, CR, SP and NBSP. *)
Definition is_white_space (c : ascii) : bool :=
  let n := nat_of_ascii c in
  ((9 <=? n)%nat && (n <=? 13)%nat) || (n =? 32)%nat || (n =? 160)%nat.

Fixpoint trim_start (s : string) : string :=
  match s with
  | EmptyString => EmptyString
  | String c rest => if is_white_space c then trim_start rest else s
  end.

Fixpoint rev_string (acc s : string) : string :=
  match s with
  | EmptyString => acc
  | String c rest => rev_string (String c acc) rest
  end.

(** [s.trim()] *)
Definition trim (s : string) : string :=
  rev_string "" (trim_start (rev_string "" (trim_start s))).

(** [ToIntegerOrInfinity] of a finite number: truncation towards zero. *)
Definition to_integer (q : Q) : Z :=
  if Qle_bool 0%Q q then Qfloor q else Qceiling q.

(** [xs.slice(0, end)]: a negative [end] counts from the end of the array,
    and the bounds are clamped to the array. *)
Definition slice0 {A : Type} (end_ : Q) (xs : list A) : list A :=
  let len := Z.of_nat (length xs) in
  let rel := to_integer end_ in
  let final := if (rel <? 0)%Z then Z.max (len + rel) 0 else Z.min rel len in
  firstn (Z.to_nat final) xs.

(** [a ?? b] *)
Definition nullish {A : Type} (a : option A) (b : A) : A :=
  match a with Some x => x | None => b end.

(** [a || b] on strings: [a] unless it is empty. *)
Definition or_else (a b : string) : string :=
  if String.eqb a "" then b else a.

End Js.

(* ================================================================== *)
(** * Zod *)
(* ================================================================== *)

Module Zod.
Import Js.

(** The schema constructors the sources use.  [.describe(...)] only
    attaches documentation and is left out. *)
Inductive schema : Type :=
| ZString (minLen maxLen : option nat)
| ZBoolean
| ZNumber (minimum maximum : option Q)
| ZLiteral (value : json)
| ZEnum (values : list string)
| ZUnion (options : list schema)
| ZOptional (inner : schema)
| ZDefault (inner : schema) (defaultValue : json)
| ZArray (element : schema) (minLen maxLen : option nat)
| ZObject (shape : list (string * schema)).

(** The result of [safeParse]: a failure, or the parsed output, which is
    [undefined] ([None]) only for an absent optional value. *)
Inductive parsed : Type :=
| Invalid
| Valid (output : option json).

Definition at_least (bound : option nat) (n : nat) : bool :=
  match bound with Some b => (b <=? n)%nat | None => true end.
Definition at_most (bound : option nat) (n : nat) : bool :=
  match bound with Some b => (n <=? b)%nat | None => true end.
Definition num_at_least (bound : option Q) (q : Q) : bool :=
  match bound with Some b => Qle_bool b q | None => true end.
Definition num_at_most (bound : option Q) (q : Q) : bool :=
  match bound with Some b => Qle_bool q b | None => true end.

(** The fields of an object schema, parsed in shape order against the
    input's properties; the output keeps the shape's keys whose value is
    defined and drops every other key of the input (zod's default
    "strip"). *)
Definition parse_shape (parse : schema -> option json -> parsed)
    (props : list (string * json)) :=
  fix go (shape : list (string * schema)) : option (list (string * json)) :=
    match shape with
    | [] => Some []
    | (k, s) :: rest =>
        match parse s (lookup k props) with
        | Invalid => None
        | Valid out =>
            match go rest with
            | None => None
            | Some outs =>
                Some (match out with Some v => (k, v) :: outs | None => outs end)
            end
        end
    end.

(** The first option of a union that accepts the input. *)
Definition parse_union (parse : schema -> option json -> parsed)
    (input : option json) :=
  fix go (options : list schema) : parsed :=
    match options with
    | [] => Invalid
    | s :: rest =>
        match parse s input with
        | Valid out => Valid out
        | Invalid => go rest
        end
    end.

Definition parse_items (parse : schema -> option json -> parsed)
    (element : schema) :=
  fix go (items : list json) : option (list json) :=
    match items with
    | [] => Some []
    | x :: rest =>
        match parse element (Some x) with
        | Invalid => None
        | Valid out =>
            match go rest with
            | None => None
            | Some outs => Some (nullish out JNull :: outs)
            end
        end
    end.

Fixpoint parse (s : schema) (input : option json) {struct s} : parsed :=
  match s with
  | ZString lo hi =>
      match input with
      | Some (JStr x) =>
          if at_least lo (String.length x) && at_most hi (String.length x)
          then Valid input else Invalid
      | _ => Invalid
      end
  | ZBoolean =>
      match input with
      | Some (JBool _) => Valid input
      | _ => Invalid
      end
  | ZNumber lo hi =>
      match input with
      | Some (JNum q) =>
          if num_at_least lo q && num_at_most hi q then Valid input else Invalid
      | _ => Invalid
      end
  | ZLiteral value =>
      match input with
      | Some v => if strict_eq v value then Valid input else Invalid
      | None => Invalid
      end
  | ZEnum values =>
      match input with
      | Some (JStr x) =>
          if existsb (String.eqb x) values then Valid input else Invalid
      | _ => Invalid
      end
  | ZUnion options => parse_union parse input options
  | ZOptional inner =>
      match input with
      | None => Valid None
      | Some _ => parse inner input
      end
  | ZDefault inner defaultValue =>
      match input with
      | None => parse inner (Some defaultValue)
      | Some _ => parse inner input
      end
  | ZArray element lo hi =>
      match input with
      | Some (JArr items) =>
          if at_least lo (length items) && at_most hi (length items)
          then match parse_items parse element items with
               | Some outs => Valid (Some (JArr outs))
               | None => Invalid
               end
          else Invalid
      | _ => Invalid
      end
  | ZObject shape =>
      match input with
      | Some (JObj props) =>
          match parse_shape parse props shape with
          | Some outs => Valid (Some (JObj outs))
          | None => Invalid
          end
      | _ => Invalid
      end
  end.

(** [schema.safeParse(input).success] *)
Definition accepts (s : schema) (input : option json) : bool :=
  match parse s input with Valid _ => true | Invalid => false end.

(** Builders named after the zod calls. *)
Definition z_string : schema := ZString None None.
Definition z_boolean : schema := ZBoolean.
Definition z_number : schema := ZNumber None None.
Definition z_literal (v : json) : schema := ZLiteral v.
Definition z_enum (values : list string) : schema := ZEnum values.
Definition z_union (options : list schema) : schema := ZUnion options.
Definition z_array (element : schema) : schema := ZArray element None None.
Definition z_object (shape : list (string * schema)) : schema := ZObject shape.
Definition optional (s : schema) : schema := ZOptional s.
Definition default (d : json) (s : schema) : schema := ZDefault s d.

(** [.min(n)] and [.max(n)] on a string, a number or an array schema. *)
Definition min_length (n : nat) (s : schema) : schema :=
  match s with
  | ZString _ hi => ZString (Some n) hi
  | ZArray e _ hi => ZArray e (Some n) hi
  | _ => s
  end.
Definition max_length (n : nat) (s : schema) : schema :=
  match s with
  | ZString lo _ => ZString lo (Some n)
  | ZArray e lo _ => ZArray e lo (Some n)
  | _ => s
  end.
Definition min_value (q : Q) (s : schema) : schema :=
  match s with
  | ZNumber _ hi => ZNumber (Some q) hi
  | _ => s
  end.
Definition max_value (q : Q) (s : schema) : schema :=
  match s with
  | ZNumber lo _ => ZNumber lo (Some q)
  | _ => s
  end.

(** [schema.shape] and [schema.shape[k]] *)
Definition shape_of (s : schema) : list (string * schema) :=
  match s with
  | ZObject shape => shape
  | _ => []
  end.
Definition field (s : schema) (k : string) : option schema :=
  lookup k (shape_of s).

(** [base.extend(augmentation)]: the shape is
    [{ ...base.shape, ...augmentation }]. *)
Definition extend (base : schema) (augmentation : list (string * schema)) : schema :=
  ZObject (spread (shape_of base) augmentation).

End Zod.

(* ================================================================== *)
(** * src/mastra/agents/phase-agents.ts: the phase output schemas *)
(* ================================================================== *)

Module PhaseAgents.
Import Js Zod.

(** Phase A output *)
Definition PhaseAOutputSchema : schema :=
  z_object
    [ ("phase", z_literal (JStr "A"));
      ("accepted", z_boolean);
      ("businessGoal", z_string);
      ("timeHorizonDays",
        z_union [z_literal (JNum 30); z_literal (JNum 60); z_literal (JNum 90)]);
      ("researchType",
        z_enum [ "Commercial Opportunity Research";
                 "Product Market Fit Validation";
                 "Technology-to-Business Research";
                 "Investment Opportunity Research";
                 "Internal Problem-Solving Research" ]);
      ("rejectedReason", optional z_string);
      ("mode", z_enum ["commercial"; "product"]) ].

(** Phase B output (extends A) *)
Definition PhaseBOutputSchema : schema :=
  extend PhaseAOutputSchema
    [ ("phase", z_literal (JStr "B"));
      ("researchTypeValidated", z_boolean);
      ("validationNotes", optional z_string) ].

(** Phase C output *)
Definition PhaseCOutputSchema : schema :=
  extend PhaseBOutputSchema
    [ ("phase", z_literal (JStr "C"));
      ("successCriteria", z_string);
      ("failureCriteria", z_string);
      ("timeLimitDays", max_value 2 (min_value 1 z_number));
      ("costLimitUsd", max_value 500 z_number);
      ("cycleRiskOrNoGo", optional z_boolean) ].

(** Phase D: methods *)
Definition MethodSchema : schema :=
  z_object
    [ ("hypothesis", z_string);
      ("expectedBusinessEffect", z_string);
      ("failureCondition", z_string);
      ("proofThreshold", z_string) ].

Definition PhaseDOutputSchema : schema :=
  extend PhaseCOutputSchema
    [ ("phase", z_literal (JStr "D"));
      ("methods", max_length 3 (min_length 1 (z_array MethodSchema)));
      ("methodsJustification", z_string) ].

(** Phase E output *)
Definition PhaseEOutputSchema : schema :=
  extend PhaseDOutputSchema
    [ ("phase", z_literal (JStr "E"));
      ("handoffPackage",
        z_object
          [ ("researchGoal", z_string);
            ("researchType", z_string);
            ("icpAndBuyerRole", z_string);
            ("initialPaidEngagement", z_string);
            ("methodsWithHypothesesAndProof", z_string);
            ("validationAlgorithm", z_string);
            ("businessAndMoneyLogic", z_string);
            ("cycleRiskFlag", optional z_boolean);
            ("risksAndLimitations", z_string);
            ("sourcesOrLinks", z_string) ]);
      ("handoffWithinPageLimit", z_boolean) ].

(** Phase F output *)
Definition PhaseFOutputSchema : schema :=
  extend PhaseEOutputSchema
    [ ("phase", z_literal (JStr "F"));
      ("status", z_enum ["SUCCESS"; "PARTIAL_SUCCESS"; "FAIL"]);
      ("executorFeedback",
        z_object
          [ ("primaryReason", z_string);
            ("whatWouldHaveChangedResult", optional z_string) ]) ].

(** Intake output schema *)
Definition IntakeOutputSchema : schema :=
  z_object [ ("enrichedPrompt", z_string) ].

(** The six phases, to index the schemas by. *)
Inductive phase : Type := PhA | PhB | PhC | PhD | PhE | PhF.

Definition output_schema (n : phase) : schema :=
  match n with
  | PhA => PhaseAOutputSchema
  | PhB => PhaseBOutputSchema
  | PhC => PhaseCOutputSchema
  | PhD => PhaseDOutputSchema
  | PhE => PhaseEOutputSchema
  | PhF => PhaseFOutputSchema
  end.

(** The phase whose schema phase [n]'s schema extends. *)
Definition previous (n : phase) : option phase :=
  match n with
  | PhA => None
  | PhB => Some PhA
  | PhC => Some PhB
  | PhD => Some PhC
  | PhE => Some PhD
  | PhF => Some PhE
  end.

Definition letter (n : phase) : string :=
  match n with
  | PhA => "A" | PhB => "B" | PhC => "C" | PhD => "D" | PhE => "E" | PhF => "F"
  end.

Definition index (n : phase) : nat :=
  match n with
  | PhA => 0 | PhB => 1 | PhC => 2 | PhD => 3 | PhE => 4 | PhF => 5
  end.

(** A language model behind an agent: the reply to a prompt, or a failed
    call. *)
Record Agent : Type := {
  agent_id : string;
  agent_name : string;
  generate : string -> Await json
}.

(** The agents the workflow is built from ([ResearchExecutionAgents] in
    the workflow file, the shape [createPhaseAgentsWithMemory] returns). *)
Record ResearchExecutionAgents : Type := {
  intakeAgent : Agent;
  phaseAAgent : Agent;
  phaseBAgent : Agent;
  phaseCAgent : Agent;
  phaseDAgent : Agent;
  phaseEAgent : Agent;
  phaseFAgent : Agent
}.

(** [createPhaseAgentsWithMemory]: the seven agents, by id and name.  All
    of them call one model; [model id prompt] is what it answers to the
    agent [id]. *)
Definition createPhaseAgentsWithMemory (model : string -> string -> Await json)
  : ResearchExecutionAgents :=
  let agent id name :=
    {| agent_id := id; agent_name := name; generate := model id |} in
  {| intakeAgent := agent "intake-agent" "Intake — Research & Enrichment";
     phaseAAgent := agent "phase-a-agent" "Phase A — Task Intake";
     phaseBAgent := agent "phase-b-agent" "Phase B — Research Type";
     phaseCAgent := agent "phase-c-agent" "Phase C — Metrics Lock";
     phaseDAgent := agent "phase-d-agent" "Phase D — Method Selection";
     phaseEAgent := agent "phase-e-agent" "Phase E — Handoff Package";
     phaseFAgent := agent "phase-f-agent" "Phase F — Validation & Status" |}.

End PhaseAgents.

(* ================================================================== *)
(** * src/mastra/tools/search-tools.ts: the two search tools *)
(* ================================================================== *)

Module SearchTools.
Import Js Zod.

Definition SEARCH_API_URL : string := "https://google.serper.dev/search".

(** The global [process]: absent outside Node, otherwise its [env]. *)
Definition Process : Type := option (list (string * string)).

(** [process.env.SERPER_API_KEY?.trim() || undefined] *)
Definition getSerperApiKey (process : Process) : option string :=
  match process with
  | None => None
  | Some env =>
      match lookup "SERPER_API_KEY" env with
      | None => None
      | Some value =>
          let trimmed := trim value in
          if String.eqb trimmed "" then None else Some trimmed
      end
  end.

(** The request both tools send: a POST with the key header and the body
    [JSON.stringify({ q, num })], kept as the object that is serialised. *)
Record Request : Type := {
  url : string;
  method : string;
  headers : list (string * string);
  body_q : string;
  body_num : Q
}.

Definition search_request (apiKey query : string) (num : Q) : Request :=
  {| url := SEARCH_API_URL;
     method := "POST";
     headers := [("Content-Type", "application/json"); ("X-API-KEY", apiKey)];
     body_q := query;
     body_num := num |}.

(** The response body as the tools cast it:
    [{ organic?: Array<{ title?: string; link?: string; snippet?: string }> }]. *)
Record OrganicItem : Type := {
  raw_title : option string;
  raw_link : option string;
  raw_snippet : option string
}.

Record SearchData : Type := { organic : option (list OrganicItem) }.

(** What the tools read of a [Response]: [ok], [statusText], and the two
    body readers, each of which may reject. *)
Record Response : Type := {
  ok : bool;
  statusText : string;
  text : Await string;
  json_body : Await SearchData
}.

(** The network.  [fetch i req] is what the [i]-th [fetch] of one tool
    execution settles with: a response, or a rejection (a transport-layer
    failure). *)
Definition Fetch : Type := nat -> Request -> Await Response.

Record SearchResult : Type := {
  title : string;
  link : string;
  snippet : string
}.

(** [(o) => ({ title: o.title ?? '', link: o.link ?? '', snippet: o.snippet ?? '' })] *)
Definition to_result (o : OrganicItem) : SearchResult :=
  {| title := nullish (raw_title o) "";
     link := nullish (raw_link o) "";
     snippet := nullish (raw_snippet o) "" |}.

(** ** internet-search *)
Module internetSearchTool.

Definition id : string := "internet-search".

Definition inputSchema : schema :=
  z_object
    [ ("query", max_length 300 (min_length 1 z_string));
      ("numResults", default (JNum 5) (optional (max_value 10 (min_value 1 z_number)))) ].

Record Output : Type := {
  success : bool;
  query : string;
  results : list SearchResult;
  error : option string
}.

Definition execute (process : Process) (fetch : Fetch)
    (query_ : string) (numResults : Q) : Output :=
  match getSerperApiKey process with
  | None =>
      {| success := false;
         query := query_;
         results := [];
         error := Some "SERPER_API_KEY not set. Add it to .env for live web search." |}
  | Some apiKey =>
      match fetch 0 (search_request apiKey query_ numResults) with
      | Rejected message =>
          {| success := false; query := query_; results := []; error := Some message |}
      | Resolved res =>
          if negb (ok res) then
            match text res with
            | Rejected message =>
                {| success := false; query := query_; results := [];
                   error := Some message |}
            | Resolved err =>
                {| success := false; query := query_; results := [];
                   error := Some (or_else err (statusText res)) |}
            end
          else
            match json_body res with
            | Rejected message =>
                {| success := false; query := query_; results := [];
                   error := Some message |}
            | Resolved data =>
                let organic_ := nullish (organic data) [] in
                {| success := true;
                   query := query_;
                   results := map to_result (slice0 numResults organic_);
                   error := None |}
            end
      end
  end.

(** The arguments [execute] receives for a tool input: the input parsed by
    [inputSchema] (which fills in the default), or nothing when the input
    is refused. *)
Definition arguments (input : json) : option (string * Q) :=
  match parse inputSchema (Some input) with
  | Valid (Some parsed_input) =>
      match get "query" parsed_input, get "numResults" parsed_input with
      | Some (JStr q), Some (JNum n) => Some (q, n)
      | _, _ => None
      end
  | _ => None
  end.

End internetSearchTool.

(** ** deep-research *)
Module deepResearchTool.

Definition id : string := "deep-research".

Definition inputSchema : schema :=
  z_object
    [ ("reasoning", z_string);
      ("queries",
        max_length 5 (min_length 1 (z_array (max_length 200 (min_length 1 z_string))))) ].

Record Finding : Type := {
  query : string;
  results : list SearchResult
}.

Record Output : Type := {
  success : bool;
  reasoning : string;
  findings : list Finding;
  synthesisHint : string;
  error : option string
}.

Definition numPerQuery : Q := 3.

(** One turn of the loop body: the finding pushed for [query_], the
    [i]-th query. *)
Definition finding_for (fetch : Fetch) (apiKey : string) (i : nat) (query_ : string)
  : Finding :=
  match fetch i (search_request apiKey query_ numPerQuery) with
  | Rejected _ => {| query := query_; results := [] |}
  | Resolved res =>
      match (if ok res then json_body res
             else Resolved {| organic := Some [] |}) with
      | Rejected _ => {| query := query_; results := [] |}
      | Resolved data =>
          let organic_ := nullish (organic data) [] in
          {| query := query_;
             results := map to_result (slice0 numPerQuery organic_) |}
      end
  end.

(** [for (const query of queries) { ... results.push(...) }]: [i] counts
    the requests sent so far, [results_] is the array being filled. *)
Fixpoint run_queries (fetch : Fetch) (apiKey : string) (i : nat)
    (queries : list string) (results_ : list Finding) : list Finding :=
  match queries with
  | [] => results_
  | query_ :: rest =>
      run_queries fetch apiKey (S i) rest
        (results_ ++ [finding_for fetch apiKey i query_])%list
  end.

Definition execute (process : Process) (fetch : Fetch)
    (reasoning_ : string) (queries : list string) : Output :=
  match getSerperApiKey process with
  | None =>
      {| success := false;
         reasoning := reasoning_;
         findings := [];
         synthesisHint := "Add SERPER_API_KEY to .env for live deep research.";
         error := Some "SERPER_API_KEY not set." |}
  | Some apiKey =>
      {| success := true;
         reasoning := reasoning_;
         findings := run_queries fetch apiKey 0 queries [];
         synthesisHint :=
           "Synthesize the above findings with respect to: " ++ reasoning_
           ++ ". Cite sources; note conflicts or gaps.";
         error := None |}
  end.

End deepResearchTool.

End SearchTools.

(* ================================================================== *)
(** * src/mastra/workflows/research-execution-workflow.ts *)
(* ================================================================== *)

Module Workflows.
Import Js Zod PhaseAgents.

(** A workflow step: [createStep(agent, { structuredOutput })] or
    [createStep({ id, description, inputSchema, outputSchema, execute })]. *)
Inductive Step : Type :=
| AgentStep (agent : Agent) (structuredOutput : schema)
| FunctionStep (id description : string) (inputSchema outputSchema : schema)
    (execute : json -> json).

Definition step_id (s : Step) : string :=
  match s with
  | AgentStep agent _ => agent_id agent
  | FunctionStep id _ _ _ _ => id
  end.

Definition is_agent_step (s : Step) : bool :=
  match s with AgentStep _ _ => true | FunctionStep _ _ _ _ _ => false end.

Definition is_bridge_step (s : Step) : bool := negb (is_agent_step s).

(** An entry of a workflow's step graph, one per builder call. *)
Inductive FlowEntry : Type :=
| EThen (s : Step)
| EParallel (steps : list Step)
| EBranch (branches : list ((json -> bool) * Step))
| EDoWhile (s : Step) (condition : json -> bool)
| EDoUntil (s : Step) (condition : json -> bool)
| EForeach (s : Step).

Record Workflow : Type := {
  workflow_id : string;
  workflow_name : string;
  workflow_input : schema;
  workflow_output : schema;
  stepFlow : list FlowEntry;
  committed : bool
}.

Definition createWorkflow (id name : string) (inputSchema outputSchema : schema)
  : Workflow :=
  {| workflow_id := id;
     workflow_name := name;
     workflow_input := inputSchema;
     workflow_output := outputSchema;
     stepFlow := [];
     committed := false |}.

(** [.then(step)] *)
Definition then_ (w : Workflow) (s : Step) : Workflow :=
  {| workflow_id := workflow_id w;
     workflow_name := workflow_name w;
     workflow_input := workflow_input w;
     workflow_output := workflow_output w;
     stepFlow := (stepFlow w ++ [EThen s])%list;
     committed := committed w |}.

(** [.commit()] *)
Definition commit (w : Workflow) : Workflow :=
  {| workflow_id := workflow_id w;
     workflow_name := workflow_name w;
     workflow_input := workflow_input w;
     workflow_output := workflow_output w;
     stepFlow := stepFlow w;
     committed := true |}.

(** The steps of a graph made of [.then] only, in order; [None] when the
    graph has any other kind of entry. *)
Fixpoint sequential (flow : list FlowEntry) : option (list Step) :=
  match flow with
  | [] => Some []
  | EThen s :: rest =>
      match sequential rest with
      | Some steps => Some (s :: steps)
      | None => None
      end
  | _ :: _ => None
  end.

(** One step.  An agent step sends [inputData.prompt] to its agent and
    parses the reply with its structured-output schema; a reply the schema
    refuses fails the step.  A function step runs its [execute]. *)
Definition run_step (s : Step) (inputData : json) : Await json :=
  match s with
  | AgentStep agent structuredOutput =>
      match get "prompt" inputData with
      | Some (JStr prompt) =>
          match generate agent prompt with
          | Rejected message => Rejected message
          | Resolved reply =>
              match parse structuredOutput (Some reply) with
              | Valid (Some output) => Resolved output
              | _ => Rejected "Structured output validation failed"
              end
          end
      | _ => Rejected "Step input validation failed"
      end
  | FunctionStep _ _ _ _ execute => Resolved (execute inputData)
  end.

(** A sequential run: each step gets the output of the one before it, and
    the first failure ends the run.  [invoked] lists the steps started so
    far, oldest first. *)
Fixpoint run_steps (steps : list Step) (inputData : json) (invoked : list Step)
  : list Step * Await json :=
  match steps with
  | [] => (invoked, Resolved inputData)
  | s :: rest =>
      match run_step s inputData with
      | Rejected message => ((invoked ++ [s])%list, Rejected message)
      | Resolved output => run_steps rest output (invoked ++ [s])%list
      end
  end.

(** [run.start({ inputData })] on a workflow whose graph is sequential. *)
Definition start (w : Workflow) (inputData : json)
  : option (list Step * Await json) :=
  match sequential (stepFlow w) with
  | Some steps => Some (run_steps steps inputData [])
  | None => None
  end.

(** Workflow input: initial user/researcher prompt (single entry point) *)
Definition WorkflowInputSchema : schema := z_object [ ("prompt", z_string) ].

(** Agent steps expect [{ prompt: string }]; bridge steps convert previous
    output into that *)
Definition AgentInputSchema : schema := z_object [ ("prompt", z_string) ].

Definition newline : string := String (ascii_of_nat 10) "".

(** [{ prompt: v }], where an [undefined] value leaves no property behind
    once the object is data. *)
Definition prompt_object (v : option json) : json :=
  JObj (match v with Some x => [("prompt", x)] | None => [] end).

Section Assembly.

(** [JSON.stringify(value, null, 2)] *)
Variable JSON_stringify : json -> string.

Definition buildPromptForNextPhase (phaseLabel : string) (previousOutput : json)
  : string :=
  "[Previous phase output]" ++ newline ++ JSON_stringify previousOutput
  ++ newline ++ newline ++ "Proceed to " ++ phaseLabel
  ++ ". Output the complete structured result for this phase only (include all prior phase fields plus this phase's new fields).".

Variable agents : ResearchExecutionAgents.

Definition stepIntake : Step := AgentStep (intakeAgent agents) IntakeOutputSchema.

Definition bridgeIntakeToA : Step :=
  FunctionStep "bridge-intake-to-a" "Pass enriched prompt from Intake to Phase A"
    IntakeOutputSchema AgentInputSchema
    (fun inputData => prompt_object (get "enrichedPrompt" inputData)).

Definition stepPhaseA : Step := AgentStep (phaseAAgent agents) PhaseAOutputSchema.

Definition bridgeAtoB : Step :=
  FunctionStep "bridge-a-to-b" "Pass Phase A output to Phase B as context"
    PhaseAOutputSchema AgentInputSchema
    (fun inputData => prompt_object (Some (JStr
       (buildPromptForNextPhase "Phase B — Research Type Validation" inputData)))).

Definition stepPhaseB : Step := AgentStep (phaseBAgent agents) PhaseBOutputSchema.

Definition bridgeBtoC : Step :=
  FunctionStep "bridge-b-to-c" "Pass Phase B output to Phase C as context"
    PhaseBOutputSchema AgentInputSchema
    (fun inputData => prompt_object (Some (JStr
       (buildPromptForNextPhase "Phase C — Metrics & Constraints Lock" inputData)))).

Definition stepPhaseC : Step := AgentStep (phaseCAgent agents) PhaseCOutputSchema.

Definition bridgeCtoD : Step :=
  FunctionStep "bridge-c-to-d" "Pass Phase C output to Phase D as context"
    PhaseCOutputSchema AgentInputSchema
    (fun inputData => prompt_object (Some (JStr
       (buildPromptForNextPhase "Phase D — Solution & Method Selection" inputData)))).

Definition stepPhaseD : Step := AgentStep (phaseDAgent agents) PhaseDOutputSchema.

Definition bridgeDtoE : Step :=
  FunctionStep "bridge-d-to-e" "Pass Phase D output to Phase E as context"
    PhaseDOutputSchema AgentInputSchema
    (fun inputData => prompt_object (Some (JStr
       (buildPromptForNextPhase "Phase E — Handoff Package Formation" inputData)))).

Definition stepPhaseE : Step := AgentStep (phaseEAgent agents) PhaseEOutputSchema.

Definition bridgeEtoF : Step :=
  FunctionStep "bridge-e-to-f" "Pass Phase E output to Phase F as context"
    PhaseEOutputSchema AgentInputSchema
    (fun inputData => prompt_object (Some (JStr
       (buildPromptForNextPhase "Phase F — Validation & Status" inputData)))).

Definition stepPhaseF : Step := AgentStep (phaseFAgent agents) PhaseFOutputSchema.

(** Build the unified R&D Execution workflow using the given agents. *)
Definition createResearchExecutionWorkflow : Workflow :=
  commit
    (then_ (then_ (then_ (then_ (then_ (then_ (then_ (then_ (then_ (then_
    (then_ (then_ (then_
      (createWorkflow "research-execution"
         "R&D Execution (Unified: Intake + Phases A–F)"
         WorkflowInputSchema PhaseFOutputSchema)
      stepIntake)
      bridgeIntakeToA)
      stepPhaseA)
      bridgeAtoB)
      stepPhaseB)
      bridgeBtoC)
      stepPhaseC)
      bridgeCtoD)
      stepPhaseD)
      bridgeDtoE)
      stepPhaseE)
      bridgeEtoF)
      stepPhaseF).

End Assembly.

End Workflows.

(* ================================================================== *)
(** * src/mastra/agents/research-agent.ts: run-research-execution-workflow *)
(* ================================================================== *)

Module ResearchAgent.
Import Js.

(** A [RequestContext]: the entries set on it, in order. *)
Definition RequestContext : Type := list (string * json).

Definition MASTRA_THREAD_ID_KEY : string := "mastra__threadId".
Definition MASTRA_RESOURCE_ID_KEY : string := "mastra__resourceId".

(** An error value as the tool reads it: its [message] when it has one, and
    what [String(...)] makes of the value itself. *)
Record ErrorValue : Type := {
  error_message : option string;
  error_string : string
}.

(** What [run.start] resolves with: [{ status, result?, error? }]. *)
Record Outcome : Type := {
  status : string;
  result : option json;
  error : option ErrorValue
}.

(** A run of the workflow handle.  [start prompt requestContext] is the
    awaited call: the milliseconds of wall-clock time it takes to settle,
    and what it settles with.  The handle type of the source gives a run
    [runId] and [start], and nothing else. *)
Record Run : Type := {
  runId : string;
  start : string -> RequestContext -> Z * Await Outcome
}.

Record ResearchExecutionWorkflowHandle : Type := {
  createRun : unit -> Await Run
}.

Inductive WorkflowSource : Type :=
| SourceNull
| SourceHandle (h : ResearchExecutionWorkflowHandle)
| SourceGetter (f : unit -> option ResearchExecutionWorkflowHandle).

(** The tool's execution context, as far as [resolveWorkflow] reads it:
    [context?.mastra] and its [getWorkflow]. *)
Record MastraInstance : Type := {
  getWorkflow : option (string -> ResearchExecutionWorkflowHandle)
}.
Record Context : Type := { mastra : option MastraInstance }.

Definition resolveWorkflow (source : WorkflowSource) (context : Context)
  : option ResearchExecutionWorkflowHandle :=
  match source with
  | SourceGetter f => f tt
  | SourceHandle h => Some h
  | SourceNull =>
      match mastra context with
      | Some m =>
          match getWorkflow m with
          | Some get_ => Some (get_ "researchExecution")
          | None => None
          end
      | None => None
      end
  end.

(** The calls the tool makes on the workflow and its run. *)
Inductive Call : Type :=
| CallCreateRun
| CallStart (prompt : string) (requestContext : RequestContext)
| CallCancel.

Record ToolResult : Type := {
  run : bool;
  tool_status : option string;
  tool_result : option json;
  tool_error : option string;
  message : string
}.

(** One execution of the tool: the wall-clock milliseconds it took, the
    calls it made, and what it settled with. *)
Record Execution : Type := {
  elapsed_ms : Z;
  calls : list Call;
  settled : Await ToolResult
}.

Definition request_context (run_id : string) : RequestContext :=
  [ (MASTRA_THREAD_ID_KEY, JStr run_id);
    (MASTRA_RESOURCE_ID_KEY, JStr run_id);
    ("MastraMemory",
      JObj [ ("thread", JObj [("id", JStr run_id)]); ("resourceId", JStr run_id) ]) ].

(** The tool result built from the outcome of [run.start]. *)
Definition report (outcome : Outcome) : ToolResult :=
  let status_ := status outcome in
  let errorStr :=
    if String.eqb status_ "failed" then
      match error outcome with
      | Some e => Some (nullish (error_message e) (error_string e))
      | None => None
      end
    else None in
  let result_ := if String.eqb status_ "success" then result outcome else None in
  let message_ :=
    if String.eqb status_ "success" then
      "Pipeline completed successfully (Phases A→F). Final result is below; tell the user in this chat."
    else
      match errorStr with
      | Some e =>
          if String.eqb e "" then
            "Pipeline finished with status: " ++ status_ ++ ". Tell the user in this chat."
          else "Pipeline failed: " ++ e ++ ". Tell the user in this chat."
      | None =>
          "Pipeline finished with status: " ++ status_ ++ ". Tell the user in this chat."
      end in
  {| run := true;
     tool_status := Some status_;
     tool_result := result_;
     tool_error := errorStr;
     message := message_ |}.

(** [createRunResearchExecutionWorkflowTool(workflowSource).execute] *)
Definition execute (workflowSource : WorkflowSource)
    (prompt : string) (context : Context) : Execution :=
  match resolveWorkflow workflowSource context with
  | None =>
      {| elapsed_ms := 0;
         calls := [];
         settled := Resolved
           {| run := false;
              tool_status := None;
              tool_result := None;
              tool_error := Some "Workflow not available in this context";
              message := "The pipeline could not be started (workflow not available). Please try again or use Research AI." |} |}
  | Some workflow =>
      match createRun workflow tt with
      | Rejected e =>
          {| elapsed_ms := 0; calls := [CallCreateRun]; settled := Rejected e |}
      | Resolved run_ =>
          let requestContext := request_context (runId run_) in
          let (elapsed, outcome) := start run_ prompt requestContext in
          {| elapsed_ms := elapsed;
             calls := [CallCreateRun; CallStart prompt requestContext];
             settled :=
               match outcome with
               | Rejected e => Rejected e
               | Resolved o => Resolved (report o)
               end |}
      end
  end.

(** The budget the README gives a run: ten minutes. *)
Definition RUN_BUDGET_MS : Z := 600000.

End ResearchAgent.

(* ================================================================== *)
(** * Sample data *)
(* ================================================================== *)

Module Samples.
Import Js Zod PhaseAgents.

(** A record for each phase, each the one before it with the phase letter
    replaced and the phase's own fields added, as the phase instructions
    ask of the model. *)
Definition recordA : list (string * json) :=
  [ ("phase", JStr "A");
    ("accepted", JBool true);
    ("businessGoal", JStr "Validate willingness to pay $25k/month");
    ("timeHorizonDays", JNum 60);
    ("researchType", JStr "Product Market Fit Validation");
    ("mode", JStr "product") ].

Definition recordB : list (string * json) :=
  set_prop "researchTypeValidated" (JBool true)
    (set_prop "phase" (JStr "B") recordA).

Definition recordC : list (string * json) :=
  set_prop "costLimitUsd" (JNum 0)
    (set_prop "timeLimitDays" (JNum (3 # 2))
      (set_prop "failureCriteria" (JStr "no signed LOI")
        (set_prop "successCriteria" (JStr "one signed LOI")
          (set_prop "phase" (JStr "C") recordB)))).

Definition method1 : json :=
  JObj [ ("hypothesis", JStr "buyers pay for a pilot");
         ("expectedBusinessEffect", JStr "$25k/month");
         ("failureCondition", JStr "no paid pilot");
         ("proofThreshold", JStr "1 paid signal") ].

Definition recordD : list (string * json) :=
  set_prop "methodsJustification" (JStr "cheapest direct test")
    (set_prop "methods" (JArr [method1])
      (set_prop "phase" (JStr "D") recordC)).

Definition handoff : json :=
  JObj [ ("researchGoal", JStr "goal");
         ("researchType", JStr "Product Market Fit Validation");
         ("icpAndBuyerRole", JStr "ops lead");
         ("initialPaidEngagement", JStr "$10k pilot");
         ("methodsWithHypothesesAndProof", JStr "method 1");
         ("validationAlgorithm", JStr "steps");
         ("businessAndMoneyLogic", JStr "money");
         ("risksAndLimitations", JStr "risks");
         ("sourcesOrLinks", JStr "links") ].

Definition recordE : list (string * json) :=
  set_prop "handoffWithinPageLimit" (JBool true)
    (set_prop "handoffPackage" handoff
      (set_prop "phase" (JStr "E") recordD)).

Definition recordF : list (string * json) :=
  set_prop "executorFeedback" (JObj [("primaryReason", JStr "validated")])
    (set_prop "status" (JStr "SUCCESS")
      (set_prop "phase" (JStr "F") recordE)).

Definition record_of (n : phase) : list (string * json) :=
  match n with
  | PhA => recordA
  | PhB => recordB
  | PhC => recordC
  | PhD => recordD
  | PhE => recordE
  | PhF => recordF
  end.

(** A model that answers each agent with the sample record of its phase,
    whatever the prompt. *)
Definition sample_model (id prompt : string) : Await json :=
  if String.eqb id "intake-agent" then
    Resolved (JObj [("enrichedPrompt", JStr "Mode: product. Time horizon: 60 days.")])
  else if String.eqb id "phase-a-agent" then Resolved (JObj recordA)
  else if String.eqb id "phase-b-agent" then Resolved (JObj recordB)
  else if String.eqb id "phase-c-agent" then Resolved (JObj recordC)
  else if String.eqb id "phase-d-agent" then Resolved (JObj recordD)
  else if String.eqb id "phase-e-agent" then Resolved (JObj recordE)
  else if String.eqb id "phase-f-agent" then Resolved (JObj recordF)
  else Rejected "unknown agent".

(** A serialiser that is good enough to run the bridges with. *)
Definition sample_stringify (v : json) : string :=
  match get "phase" v with
  | Some (JStr letter) => "{ phase: " ++ letter ++ " }"
  | _ => "{}"
  end.

(** A workflow handle whose run takes eleven minutes and then reports
    success with the sample Phase F record. *)
Definition slow_run : ResearchAgent.Run :=
  {| ResearchAgent.runId := "run-1";
     ResearchAgent.start := fun _ _ =>
       (660000%Z,
        Resolved {| ResearchAgent.status := "success";
                    ResearchAgent.result := Some (JObj recordF);
                    ResearchAgent.error := None |}) |}.

Definition slow_workflow : ResearchAgent.ResearchExecutionWorkflowHandle :=
  {| ResearchAgent.createRun := fun _ => Resolved slow_run |}.

End Samples.

(* ================================================================== *)
(** * Notions the properties are stated with *)
(* ================================================================== *)

Module Properties.
Import Js Zod PhaseAgents.

Definition field_names (s : schema) : list string := map fst (shape_of s).

(** The fields of phase [n]'s schema that the schema it extends does not
    have (for Phase A, which extends nothing, all of them). *)
Definition new_fields (n : phase) : list string :=
  match previous n with
  | Some m =>
      filter (fun k => negb (has_key k (shape_of (output_schema m))))
        (field_names (output_schema n))
  | None => field_names (output_schema n)
  end.

(** Every field of [m] is a field of [n] with the specification it has in
    [m]: nothing deleted, nothing re-specified. *)
Definition extends_unchanged (m n : schema) : Prop :=
  forall k fs, field m k = Some fs -> field n k = Some fs.

(** The steps of the pipeline in the order Intake, A, B, C, D, E, F, with
    the bridge to each phase before it. *)
Definition pipeline (JSON_stringify : json -> string)
    (agents : ResearchExecutionAgents) : list Workflows.Step :=
  [ Workflows.stepIntake agents;
    Workflows.bridgeIntakeToA;
    Workflows.stepPhaseA agents;
    Workflows.bridgeAtoB JSON_stringify;
    Workflows.stepPhaseB agents;
    Workflows.bridgeBtoC JSON_stringify;
    Workflows.stepPhaseC agents;
    Workflows.bridgeCtoD JSON_stringify;
    Workflows.stepPhaseD agents;
    Workflows.bridgeDtoE JSON_stringify;
    Workflows.stepPhaseE agents;
    Workflows.bridgeEtoF JSON_stringify;
    Workflows.stepPhaseF agents ].

(** Pure additive extension along the whole chain of phases. *)
Definition additive_chain : Prop :=
  forall n m, previous n = Some m ->
    extends_unchanged (output_schema m) (output_schema n) /\ new_fields n <> [].

End Properties.

(* ================================================================== *)
(** * Operations the further properties are stated with *)
(* ================================================================== *)

Module Objects.
Import Js Zod.

(** [delete o[k]] *)
Fixpoint delete_prop {A : Type} (k : string) (props : list (string * A))
  : list (string * A) :=
  match props with
  | [] => []
  | (k', v) :: rest =>
      if String.eqb k k' then delete_prop k rest else (k', v) :: delete_prop k rest
  end.

(** Whether a string is made of white space only (the empty string is). *)
Fixpoint all_white_space (s : string) : bool :=
  match s with
  | EmptyString => true
  | String c rest => is_white_space c && all_white_space rest
  end.

(** The first character, if there is one, is not white space. *)
Definition head_not_white (s : string) : Prop :=
  match s with
  | EmptyString => True
  | String c _ => is_white_space c = false
  end.

(** Whether a field schema is [....optional()]. *)
Definition is_optional (s : schema) : bool :=
  match s with
  | ZOptional _ => true
  | _ => false
  end.

(** A schema whose parser returns its input unchanged when it accepts it. *)
Definition plain (s : schema) : bool :=
  match s with
  | ZString _ _ | ZBoolean | ZNumber _ _ | ZLiteral _ | ZEnum _ => true
  | _ => false
  end.

Fixpoint distinct_keys {A : Type} (props : list (string * A)) : bool :=
  match props with
  | [] => true
  | (k, _) :: rest => negb (has_key k rest) && distinct_keys rest
  end.

(** The schemas of the sources' shape: object shapes have distinct keys (as
    the shape of a JavaScript object has), and a union chooses among plain
    schemas. *)
Fixpoint regular (s : schema) : bool :=
  match s with
  | ZString _ _ | ZBoolean | ZNumber _ _ | ZLiteral _ | ZEnum _ => true
  | ZUnion options => forallb plain options
  | ZOptional inner => regular inner
  | ZDefault inner _ => regular inner
  | ZArray element _ _ => regular element
  | ZObject shape =>
      distinct_keys shape
      && (fix all (fields : list (string * schema)) : bool :=
            match fields with
            | [] => true
            | (_, fs) :: rest => regular fs && all rest
            end) shape
  end.

End Objects.

Module Chains.
Import Js Zod Objects Workflows.

(** A chain of steps is well fed from an input when every agent step in it
    is handed an object with a [prompt] string, whatever the agents before
    it answered within their schemas, and every agent step's schema is
    regular. *)
Fixpoint well_fed (steps : list Step) (inputData : json) : Prop :=
  match steps with
  | [] => True
  | AgentStep _ structuredOutput :: rest =>
      (exists prompt, get "prompt" inputData = Some (JStr prompt))
      /\ regular structuredOutput = true
      /\ forall output,
           accepts structuredOutput (Some output) = true -> well_fed rest output
  | FunctionStep _ _ _ _ execute :: rest => well_fed rest (execute inputData)
  end.

End Chains.

(** [formatQueryTool] of src/mastra/agents/research-agent.ts *)
Module formatQueryTool.
Import Js.

Definition id : string := "format-research-query".

Record Output : Type := {
  query : string;
  formattedAt : string
}.

(** [now] is what [new Date().toISOString()] reads when the tool runs.
    An absent [context] and an empty one are both falsy. *)
Definition execute (now : string) (question : string) (context : option string)
  : Output :=
  let query_ :=
    match context with
    | Some c =>
        if String.eqb c "" then question
        else question ++ " (context: " ++ c ++ ")"
    | None => question
    end in
  {| query := query_; formattedAt := now |}.

End formatQueryTool.

(* ================================================================== *)
(** * Facts about the JavaScript operations *)
(* ================================================================== *)

Module JsFacts.
Import Js.

Lemma lookup_set_prop {A : Type} (k k0 : string) (v : A) props :
  lookup k (set_prop k0 v props) = if String.eqb k k0 then Some v else lookup k props.
Proof.
  induction props as [|[k1 v1] rest IH]; simpl.
  - reflexivity.
  - destruct (String.eqb_spec k0 k1) as [->|Hne]; simpl.
    + destruct (String.eqb k k1); reflexivity.
    + rewrite IH. destruct (String.eqb_spec k k1) as [->|Hk].
      * destruct (String.eqb_spec k1 k0) as [E|_]; [congruence|reflexivity].
      * reflexivity.
Qed.

Lemma lookup_app {A : Type} (k : string) (xs ys : list (string * A)) :
  lookup k (xs ++ ys) = match lookup k xs with Some v => Some v | None => lookup k ys end.
Proof.
  induction xs as [|[k1 v1] rest IH]; simpl; [reflexivity|].
  destruct (String.eqb k k1); [reflexivity|exact IH].
Qed.

Lemma lookup_In {A : Type} (k : string) (v : A) props :
  lookup k props = Some v -> In (k, v) props.
Proof.
  induction props as [|[k1 v1] rest IH]; simpl; [discriminate|].
  destruct (String.eqb_spec k k1) as [->|_].
  - intros [= ->]. now left.
  - intro H. right. now apply IH.
Qed.

Lemma lookup_map_override {A : Type} (k : string) (base aug : list (string * A)) :
  lookup k (map (fun kv => (fst kv, match lookup (fst kv) aug with
                                    | Some w => w
                                    | None => snd kv
                                    end)) base)
  = match lookup k base with
    | Some v => Some (match lookup k aug with Some w => w | None => v end)
    | None => None
    end.
Proof.
  induction base as [|[k1 v1] rest IH]; simpl; [reflexivity|].
  destruct (String.eqb_spec k k1) as [->|_]; [reflexivity|exact IH].
Qed.

(** [{ ...base, ...aug }] read at a key of [base]: the value of [aug] when
    it has the key, the one of [base] otherwise. *)
Lemma lookup_spread_old {A : Type} (k : string) (v : A) base aug :
  lookup k base = Some v ->
  lookup k (spread base aug) = Some (match lookup k aug with Some w => w | None => v end).
Proof.
  unfold spread. intro H. now rewrite lookup_app, lookup_map_override, H.
Qed.

Lemma lookup_filter_absent {A : Type} (k : string) (base aug : list (string * A)) :
  lookup k base = None ->
  lookup k (filter (fun kv => negb (has_key (fst kv) base)) aug) = lookup k aug.
Proof.
  intro H. induction aug as [|[k1 v1] rest IH]; simpl; [reflexivity|].
  destruct (String.eqb_spec k k1) as [<-|Hne].
  - unfold has_key. rewrite H. simpl. now rewrite String.eqb_refl.
  - destruct (negb (has_key k1 base)); simpl; [|exact IH].
    destruct (String.eqb_spec k k1); [contradiction|exact IH].
Qed.

(** ... and at a key [base] does not have: whatever [aug] has there. *)
Lemma lookup_spread_new {A : Type} (k : string) (base aug : list (string * A)) :
  lookup k base = None ->
  lookup k (spread base aug) = lookup k aug.
Proof.
  unfold spread. intro H. rewrite lookup_app, lookup_map_override, H.
  now apply lookup_filter_absent.
Qed.

Lemma to_integer_nonneg (q : Q) : (0 <= q)%Q -> to_integer q = Qfloor q.
Proof.
  intro H. unfold to_integer. apply Qle_bool_iff in H. now rewrite H.
Qed.

(** [xs.slice(0, end)] is a prefix of [xs] ... *)
Lemma slice0_prefix {A : Type} (q : Q) (xs : list A) :
  slice0 q xs = firstn (length (slice0 q xs)) xs.
Proof.
  unfold slice0.
  set (n := Z.to_nat _). rewrite length_firstn.
  destruct (Nat.le_ge_cases n (length xs)) as [H|H].
  - now rewrite Nat.min_l.
  - rewrite Nat.min_r by exact H. rewrite firstn_all.
    now apply firstn_all2.
Qed.

(** ... of at most [end] elements, for an [end] that is not negative. *)
Lemma slice0_length {A : Type} (q : Q) (xs : list A) :
  (0 <= q)%Q -> (inject_Z (Z.of_nat (length (slice0 q xs))) <= q)%Q.
Proof.
  intro H. unfold slice0. rewrite (to_integer_nonneg q H).
  assert (Hf : (0 <= Qfloor q)%Z).
  { rewrite <- (Qfloor_Z 0). now apply Qfloor_resp_le. }
  destruct (Z.ltb_spec (Qfloor q) 0) as [Hlt|_]; [lia|].
  rewrite length_firstn.
  apply Qle_trans with (inject_Z (Qfloor q)); [|apply Qfloor_le].
  rewrite <- Zle_Qle. lia.
Qed.

Lemma slice0_length_nat {A : Type} (n : nat) (xs : list A) :
  length (slice0 (inject_Z (Z.of_nat n)) xs) <= n.
Proof.
  pose proof (slice0_length (inject_Z (Z.of_nat n)) xs) as H.
  rewrite <- Zle_Qle in H.
  assert (0 <= inject_Z (Z.of_nat n))%Q by (rewrite <- (Zle_Qle 0); lia).
  specialize (H H0). lia.
Qed.

End JsFacts.

(* ================================================================== *)
(** * Facts about the zod parser *)
(* ================================================================== *)

Module ZodFacts.
Import Js Zod.

Lemma parse_shape_accepts props shape :
  match parse_shape parse props shape with Some _ => true | None => false end
  = forallb (fun ks => accepts (snd ks) (lookup (fst ks) props)) shape.
Proof.
  induction shape as [|[k s] rest IH]; simpl; [reflexivity|].
  unfold accepts at 1.
  destruct (parse s (lookup k props)) as [|out]; simpl; [reflexivity|].
  rewrite <- IH.
  now destruct (parse_shape parse props rest).
Qed.

(** An object schema accepts an object exactly when each field's schema
    accepts the property of that name. *)
Lemma accepts_object shape props :
  accepts (ZObject shape) (Some (JObj props))
  = forallb (fun ks => accepts (snd ks) (lookup (fst ks) props)) shape.
Proof.
  rewrite <- parse_shape_accepts. unfold accepts. simpl.
  now destruct (parse_shape parse props shape).
Qed.

Lemma accepts_object_inv shape v :
  accepts (ZObject shape) v = true -> exists props, v = Some (JObj props).
Proof.
  unfold accepts. simpl.
  destruct v as [[| | | | |props]|]; try discriminate.
  intros _. now exists props.
Qed.

Lemma accepts_field s r k fs :
  accepts s (Some r) = true -> field s k = Some fs -> accepts fs (get k r) = true.
Proof.
  intros Hacc Hf. destruct s; try discriminate Hf.
  destruct (accepts_object_inv _ _ Hacc) as [props [= ->]].
  rewrite accepts_object in Hacc.
  rewrite forallb_forall in Hacc.
  apply (Hacc (k, fs)). now apply JsFacts.lookup_In.
Qed.

Lemma accepts_fields_intro shape props :
  (forall k fs, In (k, fs) shape -> accepts fs (lookup k props) = true) ->
  accepts (ZObject shape) (Some (JObj props)) = true.
Proof.
  intro H. rewrite accepts_object. apply forallb_forall.
  intros [k fs] Hin. now apply H.
Qed.

Lemma accepts_fields_elim shape props k fs :
  accepts (ZObject shape) (Some (JObj props)) = true ->
  In (k, fs) shape -> accepts fs (lookup k props) = true.
Proof.
  rewrite accepts_object, forallb_forall. intros H Hin. exact (H (k, fs) Hin).
Qed.

(** [z.number().min(lo).max(hi)] accepts the numbers of [[lo, hi]] and
    nothing else. *)
Lemma accepts_number_between (lo hi : Q) v :
  accepts (ZNumber (Some lo) (Some hi)) v = true
  <-> exists q, v = Some (JNum q) /\ (lo <= q)%Q /\ (q <= hi)%Q.
Proof.
  unfold accepts. simpl. split.
  - destruct v as [[| |q| | |]|]; try discriminate.
    destruct (Qle_bool lo q) eqn:E1, (Qle_bool q hi) eqn:E2; try discriminate.
    intros _. exists q. rewrite <- !Qle_bool_iff. auto.
  - intros (q & -> & H1 & H2).
    apply Qle_bool_iff in H1, H2. now rewrite H1, H2.
Qed.

(** [z.number().max(hi)] accepts every number up to [hi]: there is no
    lower bound. *)
Lemma accepts_number_upto (hi : Q) v :
  accepts (ZNumber None (Some hi)) v = true
  <-> exists q, v = Some (JNum q) /\ (q <= hi)%Q.
Proof.
  unfold accepts. simpl. split.
  - destruct v as [[| |q| | |]|]; try discriminate.
    destruct (Qle_bool q hi) eqn:E; try discriminate.
    intros _. exists q. rewrite <- Qle_bool_iff. auto.
  - intros (q & -> & H). apply Qle_bool_iff in H. now rewrite H.
Qed.

(** A union of the three number literals accepts those numbers only. *)
Lemma accepts_three_numbers (a b c : Q) v :
  accepts (ZUnion [ZLiteral (JNum a); ZLiteral (JNum b); ZLiteral (JNum c)]) v = true
  <-> exists q, v = Some (JNum q) /\ (q == a \/ q == b \/ q == c)%Q.
Proof.
  unfold accepts. simpl. split.
  - destruct v as [[| |q| | |]|]; simpl; try discriminate.
    intros H. exists q. split; [reflexivity|].
    rewrite <- !Qeq_bool_iff.
    destruct (Qeq_bool q a); [now left|].
    destruct (Qeq_bool q b); [now (right; left)|].
    destruct (Qeq_bool q c); [now (right; right)|discriminate].
  - intros (q & -> & H). simpl.
    rewrite <- !Qeq_bool_iff in H.
    destruct (Qeq_bool q a); [reflexivity|].
    destruct (Qeq_bool q b); [reflexivity|].
    destruct (Qeq_bool q c); [reflexivity|].
    destruct H as [H|[H|H]]; discriminate.
Qed.

Lemma accepts_string_literal (a : string) v :
  accepts (ZLiteral (JStr a)) v = true <-> v = Some (JStr a).
Proof.
  unfold accepts. simpl. split.
  - destruct v as [[| | |x| |]|]; simpl; try discriminate.
    destruct (String.eqb_spec x a) as [->|]; [reflexivity|discriminate].
  - intros ->. simpl. now rewrite String.eqb_refl.
Qed.

End ZodFacts.

(* ================================================================== *)
(** * The phase schemas *)
(* ================================================================== *)

Module PhaseFacts.
Import Js Zod PhaseAgents Properties.

Lemma field_extend_kept base aug k fs :
  field base k = Some fs -> lookup k aug = None ->
  field (extend base aug) k = Some fs.
Proof.
  unfold field, extend. simpl. intros H Haug.
  now rewrite (JsFacts.lookup_spread_old _ _ _ _ H), Haug.
Qed.

Lemma field_extend_replaced base aug k fs fs' :
  field base k = Some fs -> lookup k aug = Some fs' ->
  field (extend base aug) k = Some fs'.
Proof.
  unfold field, extend. simpl. intros H Haug.
  now rewrite (JsFacts.lookup_spread_old _ _ _ _ H), Haug.
Qed.

Lemma output_schema_is_object n :
  output_schema n = ZObject (shape_of (output_schema n)).
Proof. destruct n; reflexivity. Qed.

Lemma phase_field n :
  field (output_schema n) "phase" = Some (z_literal (JStr (letter n))).
Proof. destruct n; reflexivity. Qed.

Lemma timeHorizonDays_field n :
  field (output_schema n) "timeHorizonDays"
  = Some (z_union [z_literal (JNum 30); z_literal (JNum 60); z_literal (JNum 90)]).
Proof. destruct n; reflexivity. Qed.

(** Decides a goal [lookup k aug = None] for a literal [aug], given that
    [k] names a field [H] of the extended schema. *)
Ltac absent_from_augmentation k H :=
  cbn [lookup];
  repeat match goal with
         | |- context [String.eqb k ?x] =>
             destruct (String.eqb_spec k x) as [->|?]
         end;
  first [ reflexivity | congruence | (vm_compute in H; discriminate H) ].

Lemma fields_kept n m k fs :
  previous n = Some m ->
  field (output_schema m) k = Some fs -> k <> "phase" ->
  field (output_schema n) k = Some fs.
Proof.
  intros Hprev H Hk.
  destruct n; simpl in Hprev; try discriminate Hprev;
    injection Hprev as <-; cbn [output_schema] in *.
  - unfold PhaseBOutputSchema. apply field_extend_kept; [exact H|].
    absent_from_augmentation k H.
  - unfold PhaseCOutputSchema. apply field_extend_kept; [exact H|].
    absent_from_augmentation k H.
  - unfold PhaseDOutputSchema. apply field_extend_kept; [exact H|].
    absent_from_augmentation k H.
  - unfold PhaseEOutputSchema. apply field_extend_kept; [exact H|].
    absent_from_augmentation k H.
  - unfold PhaseFOutputSchema. apply field_extend_kept; [exact H|].
    absent_from_augmentation k H.
Qed.

Lemma new_fields_listed :
  new_fields PhA = ["phase"; "accepted"; "businessGoal"; "timeHorizonDays";
                    "researchType"; "rejectedReason"; "mode"]
  /\ new_fields PhB = ["researchTypeValidated"; "validationNotes"]
  /\ new_fields PhC = ["successCriteria"; "failureCriteria"; "timeLimitDays";
                       "costLimitUsd"; "cycleRiskOrNoGo"]
  /\ new_fields PhD = ["methods"; "methodsJustification"]
  /\ new_fields PhE = ["handoffPackage"; "handoffWithinPageLimit"]
  /\ new_fields PhF = ["status"; "executorFeedback"].
Proof. repeat split; reflexivity. Qed.

Lemma new_fields_are_new n p k :
  In k (new_fields n) -> (index p < index n)%nat -> field (output_schema p) k = None.
Proof.
  intros Hin Hlt.
  destruct n; vm_compute in Hin;
    repeat (destruct Hin as [<-|Hin]); try contradiction;
    destruct p; simpl in Hlt; try lia; reflexivity.
Qed.

End PhaseFacts.

(* ================================================================== *)
(** * Properties of the phase records *)
(* ================================================================== *)

Import Js Zod PhaseAgents Properties.

(** C6. A record that the output schema of any phase, A to F, accepts has
    a [timeHorizonDays] property, and it is the number 30, 60 or 90. *)
Theorem timeHorizonDays_is_30_60_or_90 (n : phase) (r : json) :
  accepts (output_schema n) (Some r) = true ->
  exists q, get "timeHorizonDays" r = Some (JNum q)
            /\ (q == 30 \/ q == 60 \/ q == 90)%Q.
Proof.
  intro Hacc.
  pose proof (ZodFacts.accepts_field _ _ _ _ Hacc (PhaseFacts.timeHorizonDays_field n)) as H.
  now apply ZodFacts.accepts_three_numbers in H.
Qed.

Lemma timeHorizonDays_is_30_60_or_90_witness :
  exists q, get "timeHorizonDays" (JObj Samples.recordF) = Some (JNum q)
            /\ (q == 30 \/ q == 60 \/ q == 90)%Q.
Proof.
  apply (timeHorizonDays_is_30_60_or_90 PhF).
  vm_compute. reflexivity.
Defined.

(** C1, as the specification words it, fails: Phase B's schema gives the
    [phase] field of Phase A's schema a new specification, so the chain of
    schemas is not a pure additive extension. *)
Lemma phase_field_is_respecified : ~ additive_chain.
Proof.
  intro H. destruct (H PhB PhA eq_refl) as [Hext _].
  specialize (Hext "phase" (z_literal (JStr "A")) eq_refl).
  vm_compute in Hext. discriminate Hext.
Qed.

(** C1, amended.  Every phase's schema, A to F, has fields that no earlier
    phase's schema has, at least one, and specifies [phase] as the literal
    of its own letter.  For a phase [n] whose schema extends that of phase
    [m]: every field of [m]'s schema other than [phase] is a field of
    [n]'s schema with the same specification, and [phase] is the one field
    re-specified, from the literal of [m]'s letter to the literal of
    [n]'s; so a record that [n]'s schema accepts has [n]'s letter as its
    [phase], is refused by [m]'s schema, and satisfies, field by field,
    every other specification of [m]'s schema. *)
Theorem phase_schema_extends_previous (n : phase) :
  new_fields n <> []
  /\ (forall k p, In k (new_fields n) -> (index p < index n)%nat ->
                  field (output_schema p) k = None)
  /\ field (output_schema n) "phase" = Some (z_literal (JStr (letter n)))
  /\ (forall m, previous n = Some m ->
        (forall k fs, field (output_schema m) k = Some fs -> k <> "phase" ->
                      field (output_schema n) k = Some fs)
        /\ (forall k, field (output_schema m) k <> None ->
                      field (output_schema n) k <> None)
        /\ letter m <> letter n
        /\ (forall r, accepts (output_schema n) (Some r) = true ->
              get "phase" r = Some (JStr (letter n))
              /\ accepts (output_schema m) (Some r) = false
              /\ forall k fs, field (output_schema m) k = Some fs -> k <> "phase" ->
                              accepts fs (get k r) = true)).
Proof.
  split; [destruct n; discriminate|].
  split; [intros k p; apply PhaseFacts.new_fields_are_new|].
  split; [apply PhaseFacts.phase_field|].
  intros m Hprev.
  assert (Hletters : letter m <> letter n).
  { destruct n; simpl in Hprev; try discriminate Hprev;
      injection Hprev as <-; discriminate. }
  split; [intros k fs; now apply PhaseFacts.fields_kept|].
  split.
  { intros k Hk. destruct (String.eqb_spec k "phase") as [->|Hne].
    - rewrite PhaseFacts.phase_field. discriminate.
    - destruct (field (output_schema m) k) as [fs|] eqn:Hf; [|contradiction].
      rewrite (PhaseFacts.fields_kept n m k fs Hprev Hf Hne). discriminate. }
  split; [exact Hletters|].
  intros r H.
  pose proof (ZodFacts.accepts_field _ _ _ _ H (PhaseFacts.phase_field n)) as Hp.
  apply ZodFacts.accepts_string_literal in Hp.
  split; [exact Hp|]. split.
  - destruct (accepts (output_schema m) (Some r)) eqn:Hm; [|reflexivity].
    pose proof (ZodFacts.accepts_field _ _ _ _ Hm (PhaseFacts.phase_field m)) as Hq.
    apply ZodFacts.accepts_string_literal in Hq.
    rewrite Hp in Hq. injection Hq as Hq. symmetry in Hq. contradiction.
  - intros k fs Hf Hk.
    apply (ZodFacts.accepts_field _ _ _ _ H).
    now apply (PhaseFacts.fields_kept n m).
Qed.

Lemma phase_schema_extends_previous_witness :
  (forall k fs, field PhaseAOutputSchema k = Some fs -> k <> "phase" ->
                field PhaseBOutputSchema k = Some fs)
  /\ new_fields PhB <> []
  /\ accepts PhaseBOutputSchema (Some (JObj Samples.recordB)) = true
  /\ accepts PhaseAOutputSchema (Some (JObj Samples.recordB)) = false.
Proof.
  destruct (phase_schema_extends_previous PhB) as (Hnew & _ & _ & Hprev).
  destruct (Hprev PhA eq_refl) as (Hkept & _ & _ & Hrec).
  assert (Hacc : accepts PhaseBOutputSchema (Some (JObj Samples.recordB)) = true)
    by (vm_compute; reflexivity).
  split; [exact Hkept|].
  split; [exact Hnew|].
  split; [exact Hacc|].
  exact (proj1 (proj2 (Hrec _ Hacc))).
Defined.

(** Replacing the two limits of a record by numbers within the bounds
    keeps it acceptable to a schema whose other fields it satisfies. *)
Lemma limits_replaceable (n : phase) props (t c : Q) :
  (index PhC <= index n)%nat ->
  accepts (output_schema n) (Some (JObj props)) = true ->
  (1 <= t)%Q -> (t <= 2)%Q -> (c <= 500)%Q ->
  accepts (output_schema n)
    (Some (JObj (set_prop "costLimitUsd" (JNum c)
                  (set_prop "timeLimitDays" (JNum t) props)))) = true.
Proof.
  intros Hn Hacc Ht1 Ht2 Hc.
  assert (Htime : accepts (ZNumber (Some 1%Q) (Some 2%Q)) (Some (JNum t)) = true).
  { apply ZodFacts.accepts_number_between. now exists t. }
  assert (Hcost : accepts (ZNumber None (Some 500%Q)) (Some (JNum c)) = true).
  { apply ZodFacts.accepts_number_upto. now exists c. }
  rewrite (PhaseFacts.output_schema_is_object n) in Hacc |- *.
  apply ZodFacts.accepts_fields_intro. intros k fs Hin.
  pose proof (ZodFacts.accepts_fields_elim _ _ _ _ Hacc Hin) as Hold.
  rewrite !JsFacts.lookup_set_prop.
  destruct n; simpl in Hn; try lia;
    vm_compute in Hin;
    repeat (destruct Hin as [Heq|Hin]; [injection Heq as <- <-|]);
    try contradiction;
    first [ exact Hold | exact Htime | exact Hcost ].
Qed.

(** C10. In the schema of Phase C and of every later phase, [timeLimitDays]
    is a number bounded by 1 and 2 and nothing more -- any number of the
    interval is accepted, 1.5 among them -- and [costLimitUsd] is a number
    bounded from above by 500 and nothing more -- zero and the negative
    numbers are accepted.  Records with such values are accepted: the
    sample record of the phase with any [t] of [[1, 2]] and any [c <= 500]
    in the two fields, and any accepted record after the same change. *)
Theorem phaseC_limits_are_bounds_only (n : phase) :
  (index PhC <= index n)%nat ->
  field (output_schema n) "timeLimitDays" = Some (max_value 2 (min_value 1 z_number))
  /\ field (output_schema n) "costLimitUsd" = Some (max_value 500 z_number)
  /\ (forall v, accepts (max_value 2 (min_value 1 z_number)) v = true
                <-> exists q, v = Some (JNum q) /\ (1 <= q)%Q /\ (q <= 2)%Q)
  /\ (forall v, accepts (max_value 500 z_number) v = true
                <-> exists q, v = Some (JNum q) /\ (q <= 500)%Q)
  /\ accepts (max_value 2 (min_value 1 z_number)) (Some (JNum (3 # 2))) = true
  /\ accepts (max_value 500 z_number) (Some (JNum 0)) = true
  /\ (forall c, (c < 0)%Q -> accepts (max_value 500 z_number) (Some (JNum c)) = true)
  /\ (forall t c, (1 <= t)%Q -> (t <= 2)%Q -> (c <= 500)%Q ->
        accepts (output_schema n)
          (Some (JObj (set_prop "costLimitUsd" (JNum c)
                        (set_prop "timeLimitDays" (JNum t) (Samples.record_of n)))))
        = true)
  /\ (forall props t c,
        accepts (output_schema n) (Some (JObj props)) = true ->
        (1 <= t)%Q -> (t <= 2)%Q -> (c <= 500)%Q ->
        accepts (output_schema n)
          (Some (JObj (set_prop "costLimitUsd" (JNum c)
                        (set_prop "timeLimitDays" (JNum t) props)))) = true).
Proof.
  intro Hn.
  split; [destruct n; simpl in Hn; try lia; reflexivity|].
  split; [destruct n; simpl in Hn; try lia; reflexivity|].
  split; [intro v; apply ZodFacts.accepts_number_between|].
  split; [intro v; apply ZodFacts.accepts_number_upto|].
  split; [reflexivity|].
  split; [reflexivity|].
  split.
  { intros c Hc. apply ZodFacts.accepts_number_upto. exists c.
    split; [reflexivity|]. apply Qlt_le_weak.
    apply Qlt_trans with 0%Q; [exact Hc|reflexivity]. }
  split.
  - intros t c Ht1 Ht2 Hc. apply limits_replaceable; try assumption.
    destruct n; simpl in Hn; try lia; vm_compute; reflexivity.
  - intros props t c. now apply limits_replaceable.
Qed.

Lemma phaseC_limits_are_bounds_only_witness :
  accepts PhaseFOutputSchema
    (Some (JObj (set_prop "costLimitUsd" (JNum (-1))
                  (set_prop "timeLimitDays" (JNum (3 # 2)) Samples.recordF)))) = true
  /\ accepts PhaseCOutputSchema
       (Some (JObj (set_prop "costLimitUsd" (JNum 0)
                     (set_prop "timeLimitDays" (JNum (3 # 2)) Samples.recordC)))) = true.
Proof.
  split.
  - assert (Hn : (index PhC <= index PhF)%nat) by (simpl; lia).
    destruct (phaseC_limits_are_bounds_only PhF Hn)
      as (_ & _ & _ & _ & _ & _ & _ & Hsample & _).
    apply (Hsample (3 # 2)%Q (-1)%Q); vm_compute; discriminate.
  - assert (Hn : (index PhC <= index PhC)%nat) by (simpl; lia).
    destruct (phaseC_limits_are_bounds_only PhC Hn)
      as (_ & _ & _ & _ & _ & _ & _ & Hsample & _).
    apply (Hsample (3 # 2)%Q 0%Q); vm_compute; discriminate.
Defined.

(* ================================================================== *)
(** * The search tools *)
(* ================================================================== *)

Module SearchFacts.
Import SearchTools.

Lemma slice0_nat {A : Type} (n : nat) (xs : list A) :
  slice0 (inject_Z (Z.of_nat n)) xs = firstn n xs.
Proof.
  unfold slice0.
  assert (H0 : (0 <= inject_Z (Z.of_nat n))%Q) by (rewrite <- (Zle_Qle 0); lia).
  rewrite (JsFacts.to_integer_nonneg _ H0), Qfloor_Z.
  destruct (Z.ltb_spec (Z.of_nat n) 0) as [Hlt|_]; [lia|].
  destruct (Nat.le_ge_cases n (length xs)) as [H|H].
  - rewrite Z.min_l by lia. now rewrite Nat2Z.id.
  - rewrite Z.min_r by lia. rewrite Nat2Z.id.
    rewrite firstn_all. symmetry. now apply firstn_all2.
Qed.

Lemma slice_per_query {A : Type} (xs : list A) :
  slice0 deepResearchTool.numPerQuery xs = firstn 3 xs.
Proof. exact (slice0_nat 3 xs). Qed.

Section OneQuery.
Import deepResearchTool.
Variables (fetch : Fetch) (apiKey : string).

Lemma finding_query i q : query (finding_for fetch apiKey i q) = q.
Proof.
  unfold finding_for.
  destruct (fetch i _) as [res|]; [|reflexivity].
  destruct (if ok res then json_body res else _); reflexivity.
Qed.

Lemma finding_at_most_three i q :
  (length (results (finding_for fetch apiKey i q)) <= 3)%nat.
Proof.
  unfold finding_for.
  destruct (fetch i _) as [res|]; [|simpl; lia].
  destruct (if ok res then json_body res else _) as [data|]; [|simpl; lia].
  simpl. rewrite length_map, slice_per_query, length_firstn. lia.
Qed.

Lemma finding_of_rejection i q message :
  fetch i (search_request apiKey q numPerQuery) = Rejected message ->
  finding_for fetch apiKey i q = {| query := q; results := [] |}.
Proof. unfold finding_for. now intros ->. Qed.

Lemma finding_of_response i q res data :
  fetch i (search_request apiKey q numPerQuery) = Resolved res ->
  ok res = true -> json_body res = Resolved data ->
  finding_for fetch apiKey i q
  = {| query := q;
       results := map to_result (firstn 3 (nullish (organic data) [])) |}.
Proof.
  unfold finding_for. intros -> -> ->. now rewrite slice_per_query.
Qed.

(** The loop pushes one finding per query, in the order of the queries:
    the [j]-th query is answered by the [(i + j)]-th request. *)
Lemma run_queries_spec queries : forall i acc,
  run_queries fetch apiKey i queries acc
  = (acc ++ map (fun jq => finding_for fetch apiKey (fst jq) (snd jq))
              (combine (seq i (length queries)) queries))%list.
Proof.
  induction queries as [|q rest IH]; intros i acc; simpl.
  - now rewrite app_nil_r.
  - rewrite IH, <- app_assoc. reflexivity.
Qed.

Lemma run_queries_length queries i acc :
  length (run_queries fetch apiKey i queries acc)
  = (length acc + length queries)%nat.
Proof.
  revert i acc. induction queries as [|q rest IH]; intros i acc; simpl.
  - lia.
  - rewrite IH, length_app. simpl. lia.
Qed.

Lemma run_queries_queries queries i acc :
  map query (run_queries fetch apiKey i queries acc)
  = (map query acc ++ queries)%list.
Proof.
  revert i acc. induction queries as [|q rest IH]; intros i acc; simpl.
  - now rewrite app_nil_r.
  - rewrite IH, map_app, <- app_assoc. simpl. now rewrite finding_query.
Qed.

Lemma run_queries_nth queries : forall i acc j q,
  nth_error queries j = Some q ->
  nth_error (run_queries fetch apiKey i queries acc) (length acc + j)
  = Some (finding_for fetch apiKey (i + j) q).
Proof.
  induction queries as [|q0 rest IH]; intros i acc j q Hq.
  - destruct j; discriminate Hq.
  - simpl. destruct j as [|j]; simpl in Hq.
    + injection Hq as ->.
      rewrite run_queries_spec, <- app_assoc. simpl.
      rewrite !Nat.add_0_r, nth_error_app2 by lia.
      rewrite Nat.sub_diag. reflexivity.
    + specialize (IH (S i) (acc ++ [finding_for fetch apiKey i q0])%list j q Hq).
      rewrite length_app in IH. simpl in IH.
      replace (length acc + S j)%nat with (length acc + 1 + j)%nat by lia.
      replace (i + S j)%nat with (S i + j)%nat by lia.
      exact IH.
Qed.

Lemma run_queries_bounded queries : forall i acc,
  Forall (fun f => (length (results f) <= 3)%nat) acc ->
  Forall (fun f => (length (results f) <= 3)%nat)
    (run_queries fetch apiKey i queries acc).
Proof.
  induction queries as [|q rest IH]; intros i acc Hacc; simpl; [exact Hacc|].
  apply IH. apply Forall_app. split; [exact Hacc|].
  constructor; [apply finding_at_most_three|constructor].
Qed.

Lemma run_queries_all_rejected queries : forall i acc,
  (forall j req, exists message, fetch j req = Rejected message) ->
  Forall (fun f => results f = []) acc ->
  Forall (fun f => results f = []) (run_queries fetch apiKey i queries acc).
Proof.
  induction queries as [|q rest IH]; intros i acc Hrej Hacc; simpl; [exact Hacc|].
  apply IH; [exact Hrej|]. apply Forall_app. split; [exact Hacc|].
  constructor; [|constructor].
  destruct (Hrej i (search_request apiKey q numPerQuery)) as [message Hm].
  now rewrite (finding_of_rejection _ _ _ Hm).
Qed.

End OneQuery.

End SearchFacts.

Import SearchTools.

(** C3, as the specification words it, fails: no one string is the
    synthesis hint of every output.  With a credential configured, two
    calls that differ in their reasoning return different hints. *)
Lemma synthesis_hint_is_not_fixed :
  ~ exists hint : string,
      forall process fetch reasoning queries,
        deepResearchTool.synthesisHint
          (deepResearchTool.execute process fetch reasoning queries) = hint.
Proof.
  intros [hint H].
  pose (process := Some [("SERPER_API_KEY", "key")] : Process).
  pose (fetch := (fun _ _ => Rejected "offline") : Fetch).
  pose proof (H process fetch "pricing" ["saas pricing"]) as H1.
  pose proof (H process fetch "demand" ["saas pricing"]) as H2.
  rewrite <- H2 in H1. vm_compute in H1. discriminate H1.
Qed.

(** C3, amended.  The synthesis hint of the deep-research tool does not
    depend on the queries or on what the searches return.  With a
    credential configured it is the fixed template around the input
    reasoning, "Synthesize the above findings with respect to:
    <reasoning>. Cite sources; note conflicts or gaps."; with none it is
    the fixed string "Add SERPER_API_KEY to .env for live deep research.". *)
Theorem synthesis_hint_is_a_template_of_the_reasoning
    (process : Process) (fetch : Fetch) (reasoning : string) (queries : list string) :
  deepResearchTool.synthesisHint
    (deepResearchTool.execute process fetch reasoning queries)
  = match getSerperApiKey process with
    | Some _ =>
        "Synthesize the above findings with respect to: " ++ reasoning
        ++ ". Cite sources; note conflicts or gaps."
    | None => "Add SERPER_API_KEY to .env for live deep research."
    end.
Proof.
  unfold deepResearchTool.execute.
  destruct (getSerperApiKey process); reflexivity.
Qed.

(** C5. With no search credential configured, the internet-search tool
    returns, for every query and result count and without sending a
    request, [success: false], an empty result list and a non-empty error
    string. *)
Theorem internet_search_without_credential
    (process : Process) (fetch : Fetch) (query : string) (numResults : Q) :
  getSerperApiKey process = None ->
  internetSearchTool.execute process fetch query numResults
  = {| internetSearchTool.success := false;
       internetSearchTool.query := query;
       internetSearchTool.results := [];
       internetSearchTool.error :=
         Some "SERPER_API_KEY not set. Add it to .env for live web search." |}
  /\ "SERPER_API_KEY not set. Add it to .env for live web search." <> "".
Proof.
  intro Hkey. unfold internetSearchTool.execute. rewrite Hkey.
  split; [reflexivity|discriminate].
Qed.

Lemma internet_search_without_credential_witness :
  internetSearchTool.success
    (internetSearchTool.execute (Some [("SERPER_API_KEY", "   ")])
       (fun _ _ => Rejected "unreachable") "b2b demand" 5) = false
  /\ internetSearchTool.results
       (internetSearchTool.execute None (fun _ _ => Rejected "unreachable") "" 5) = [].
Proof.
  split.
  - assert (H : getSerperApiKey (Some [("SERPER_API_KEY", "   ")]) = None)
      by reflexivity.
    destruct (internet_search_without_credential
                (Some [("SERPER_API_KEY", "   ")])
                (fun _ _ => Rejected "unreachable") "b2b demand" 5 H) as [-> _].
    reflexivity.
  - assert (H : getSerperApiKey None = None) by reflexivity.
    destruct (internet_search_without_credential None
                (fun _ _ => Rejected "unreachable") "" 5 H) as [-> _].
    reflexivity.
Defined.

(** C9. With a credential configured, the deep-research tool returns
    [success: true] and one finding per input query, in the order of the
    queries, each with at most three results -- whatever the searches do,
    and so also when every one of them fails at the transport layer, in
    which case every result list is empty. *)
Theorem deep_research_findings_follow_the_queries
    (process : Process) (fetch : Fetch) (reasoning apiKey : string)
    (queries : list string) :
  getSerperApiKey process = Some apiKey ->
  let out := deepResearchTool.execute process fetch reasoning queries in
  deepResearchTool.success out = true
  /\ length (deepResearchTool.findings out) = length queries
  /\ map deepResearchTool.query (deepResearchTool.findings out) = queries
  /\ Forall (fun f => (length (deepResearchTool.results f) <= 3)%nat)
       (deepResearchTool.findings out)
  /\ ((forall i req, exists message, fetch i req = Rejected message) ->
      Forall (fun f => deepResearchTool.results f = [])
        (deepResearchTool.findings out)).
Proof.
  intro Hkey. unfold deepResearchTool.execute. rewrite Hkey. simpl.
  split; [reflexivity|].
  split; [now rewrite SearchFacts.run_queries_length|].
  split; [now rewrite SearchFacts.run_queries_queries|].
  split; [apply SearchFacts.run_queries_bounded; constructor|].
  intro Hrej. apply SearchFacts.run_queries_all_rejected; [exact Hrej|constructor].
Qed.

Lemma deep_research_findings_follow_the_queries_witness :
  let out := deepResearchTool.execute (Some [("SERPER_API_KEY", "key")])
               (fun _ _ => Rejected "ECONNREFUSED") "why" ["a"; "b"] in
  deepResearchTool.success out = true
  /\ map deepResearchTool.query (deepResearchTool.findings out) = ["a"; "b"]
  /\ Forall (fun f => deepResearchTool.results f = [])
       (deepResearchTool.findings out).
Proof.
  assert (H : getSerperApiKey (Some [("SERPER_API_KEY", "key")]) = Some "key")
    by reflexivity.
  destruct (deep_research_findings_follow_the_queries
              (Some [("SERPER_API_KEY", "key")])
              (fun _ _ => Rejected "ECONNREFUSED") "why" "key" ["a"; "b"] H)
    as (Hs & _ & Hq & _ & Hall).
  split; [exact Hs|]. split; [exact Hq|].
  apply Hall. intros i req. now exists "ECONNREFUSED".
Defined.

(** C4. With a credential configured, a query whose request fails at the
    transport layer gets a finding with an empty result list, and the call
    as a whole still succeeds with one finding per query; each query whose
    request is answered gets the first three results of its response.  So
    with three queries of which one fails, the output has three findings,
    the failing query's is empty, and the other two are filled from their
    responses. *)
Theorem deep_research_isolates_a_failed_query
    (process : Process) (fetch : Fetch) (reasoning apiKey : string)
    (queries : list string) (i : nat) (failing message : string) :
  getSerperApiKey process = Some apiKey ->
  nth_error queries i = Some failing ->
  fetch i (search_request apiKey failing deepResearchTool.numPerQuery)
    = Rejected message ->
  let out := deepResearchTool.execute process fetch reasoning queries in
  deepResearchTool.success out = true
  /\ deepResearchTool.error out = None
  /\ length (deepResearchTool.findings out) = length queries
  /\ nth_error (deepResearchTool.findings out) i
     = Some {| deepResearchTool.query := failing; deepResearchTool.results := [] |}
  /\ (forall j q res data,
        nth_error queries j = Some q ->
        fetch j (search_request apiKey q deepResearchTool.numPerQuery) = Resolved res ->
        ok res = true -> json_body res = Resolved data ->
        nth_error (deepResearchTool.findings out) j
        = Some {| deepResearchTool.query := q;
                  deepResearchTool.results :=
                    map to_result (firstn 3 (nullish (organic data) [])) |}).
Proof.
  intros Hkey Hi Hfail. unfold deepResearchTool.execute. rewrite Hkey. simpl.
  split; [reflexivity|]. split; [reflexivity|].
  split; [now rewrite SearchFacts.run_queries_length|].
  split.
  - pose proof (SearchFacts.run_queries_nth fetch apiKey queries 0 [] i failing Hi) as H.
    simpl in H. rewrite H.
    now rewrite (SearchFacts.finding_of_rejection _ _ _ _ _ Hfail).
  - intros j q res data Hj Hres Hok Hdata.
    pose proof (SearchFacts.run_queries_nth fetch apiKey queries 0 [] j q Hj) as H.
    simpl in H. rewrite H.
    now rewrite (SearchFacts.finding_of_response _ _ _ _ _ _ Hres Hok Hdata).
Qed.

Lemma deep_research_isolates_a_failed_query_witness :
  let item := {| raw_title := Some "Pricing survey"; raw_link := Some "https://example.org";
                 raw_snippet := None |} in
  let response := {| ok := true; statusText := "OK"; text := Resolved "";
                     json_body := Resolved {| organic := Some [item] |} |} in
  let fetch := (fun i _ => if Nat.eqb i 1 then Rejected "ECONNRESET"
                           else Resolved response) : Fetch in
  let out := deepResearchTool.execute (Some [("SERPER_API_KEY", "key")]) fetch
               "demand" ["first"; "second"; "third"] in
  deepResearchTool.success out = true
  /\ length (deepResearchTool.findings out) = 3%nat
  /\ nth_error (deepResearchTool.findings out) 1
     = Some {| deepResearchTool.query := "second"; deepResearchTool.results := [] |}
  /\ nth_error (deepResearchTool.findings out) 0
     = Some {| deepResearchTool.query := "first";
               deepResearchTool.results := [to_result item] |}
  /\ nth_error (deepResearchTool.findings out) 2
     = Some {| deepResearchTool.query := "third";
               deepResearchTool.results := [to_result item] |}.
Proof.
  intros item response fetch out.
  destruct (deep_research_isolates_a_failed_query
              (Some [("SERPER_API_KEY", "key")]) fetch "demand" "key"
              ["first"; "second"; "third"] 1 "second" "ECONNRESET"
              eq_refl eq_refl eq_refl)
    as (Hs & _ & Hlen & Hfailed & Hothers).
  split; [exact Hs|]. split; [exact Hlen|]. split; [exact Hfailed|].
  split.
  - exact (Hothers 0%nat "first" response _ eq_refl eq_refl eq_refl eq_refl).
  - exact (Hothers 2%nat "third" response _ eq_refl eq_refl eq_refl eq_refl).
Defined.

(** The arguments the internet-search tool runs with, read off its input
    schema: the query, of 1 to 300 characters, and the result count, a
    number of [[1, 10]], or 5 when the input gives none. *)
Lemma internet_search_arguments props :
  internetSearchTool.arguments (JObj props)
  = match lookup "query" props with
    | Some (JStr x) =>
        if ((1 <=? String.length x)%nat && (String.length x <=? 300)%nat)%bool then
          match lookup "numResults" props with
          | None => Some (x, 5%Q)
          | Some (JNum m) =>
              if (Qle_bool 1 m && Qle_bool m 10)%bool then Some (x, m) else None
          | Some _ => None
          end
        else None
    | _ => None
    end.
Proof.
  unfold internetSearchTool.arguments, internetSearchTool.inputSchema.
  cbn -[Nat.leb].
  destruct (lookup "query" props) as [[| | |x| |]|]; try reflexivity.
  destruct ((1 <=? String.length x)%nat && (String.length x <=? 300)%nat)%bool;
    [|reflexivity].
  destruct (lookup "numResults" props) as [[| |m| | |]|]; try reflexivity.
  destruct (Qle_bool 1 m && Qle_bool m 10)%bool; reflexivity.
Qed.

(** C8. The internet-search tool takes a query string and a result count:
    a count between 1 and 10 is accepted as given, an input without a
    count runs with 5, and whatever the input schema lets through is a
    count between 1 and 10.  On success the results are the titles, links
    and snippets of the leading items of the response, in the order of the
    response, and there are no more of them than the count. *)
Theorem internet_search_count_and_cap :
  (forall query n,
      (1 <= String.length query)%nat -> (String.length query <= 300)%nat ->
      (1 <= n)%Q -> (n <= 10)%Q ->
      internetSearchTool.arguments
        (JObj [("query", JStr query); ("numResults", JNum n)]) = Some (query, n))
  /\ (forall query,
      (1 <= String.length query)%nat -> (String.length query <= 300)%nat ->
      internetSearchTool.arguments (JObj [("query", JStr query)]) = Some (query, 5%Q))
  /\ (forall input query n,
      internetSearchTool.arguments input = Some (query, n) ->
      get "query" input = Some (JStr query)
      /\ (1 <= n)%Q /\ (n <= 10)%Q
      /\ (get "numResults" input = None -> n = 5%Q)
      /\ (forall v, get "numResults" input = Some v -> v = JNum n))
  /\ (forall process fetch query n,
      (1 <= n)%Q -> (n <= 10)%Q ->
      let out := internetSearchTool.execute process fetch query n in
      internetSearchTool.success out = true ->
      (inject_Z (Z.of_nat (length (internetSearchTool.results out))) <= n)%Q
      /\ exists apiKey res data,
           getSerperApiKey process = Some apiKey
           /\ fetch 0%nat (search_request apiKey query n) = Resolved res
           /\ json_body res = Resolved data
           /\ internetSearchTool.results out
              = map to_result
                  (firstn (length (internetSearchTool.results out))
                     (nullish (organic data) []))).
Proof.
  split; [|split; [|split]].
  - intros query n Hl1 Hl2 Hn1 Hn2.
    rewrite internet_search_arguments. cbn -[Nat.leb Qle_bool].
    apply Nat.leb_le in Hl1, Hl2. rewrite Hl1, Hl2.
    apply Qle_bool_iff in Hn1, Hn2. now rewrite Hn1, Hn2.
  - intros query Hl1 Hl2.
    rewrite internet_search_arguments. cbn -[Nat.leb Qle_bool].
    apply Nat.leb_le in Hl1, Hl2. now rewrite Hl1, Hl2.
  - intros input query n.
    destruct input as [| | | | |props]; try discriminate.
    rewrite internet_search_arguments. simpl get.
    destruct (lookup "query" props) as [[| | |x| |]|]; try discriminate.
    destruct (_ && _)%bool; try discriminate.
    destruct (lookup "numResults" props) as [[| |m| | |]|]; try discriminate.
    + destruct (Qle_bool 1 m) eqn:H1, (Qle_bool m 10) eqn:H2; try discriminate.
      intros [= -> ->]. apply Qle_bool_iff in H1, H2.
      repeat split; try assumption; [discriminate|now intros v [= <-]].
    + intros [= -> <-].
      repeat split; try discriminate; reflexivity.
  - intros process fetch query n Hn1 Hn2 out Hs. subst out.
    unfold internetSearchTool.execute in *.
    destruct (getSerperApiKey process) as [apiKey|]; [|discriminate Hs].
    destruct (fetch 0%nat _) as [res|] eqn:Hf; [|discriminate Hs].
    destruct (ok res); simpl in *.
    + destruct (json_body res) as [data|] eqn:Hd; [|discriminate Hs].
      simpl. rewrite length_map. split.
      * apply JsFacts.slice0_length.
        apply Qle_trans with 1%Q; [discriminate|exact Hn1].
      * exists apiKey, res, data. repeat split; try assumption.
        now rewrite <- JsFacts.slice0_prefix.
    + destruct (text res); discriminate Hs.
Qed.

Lemma internet_search_count_and_cap_witness :
  internetSearchTool.arguments (JObj [("query", JStr "b2b demand")])
    = Some ("b2b demand", 5%Q)
  /\ internetSearchTool.arguments
       (JObj [("query", JStr "b2b demand"); ("numResults", JNum 11)]) = None.
Proof.
  destruct internet_search_count_and_cap as (_ & Hdefault & Hbounds & _).
  split.
  - apply Hdefault; simpl; lia.
  - destruct (internetSearchTool.arguments
                (JObj [("query", JStr "b2b demand"); ("numResults", JNum 11)]))
      as [[q n]|] eqn:E; [|reflexivity].
    destruct (Hbounds _ _ _ E) as (_ & _ & Hle & _ & Hv).
    specialize (Hv (JNum 11) eq_refl). injection Hv as <-.
    exfalso. apply Hle. reflexivity.
Defined.

(* ================================================================== *)
(** * The workflow *)
(* ================================================================== *)

Module WorkflowFacts.
Import Workflows.

Lemma sequential_then (steps : list Step) :
  sequential (map EThen steps) = Some steps.
Proof.
  induction steps as [|s rest IH]; simpl; [reflexivity|now rewrite IH].
Qed.

(** A run that succeeds has started every step, once, in order. *)
Lemma run_steps_success steps : forall inputData invoked invoked' output,
  run_steps steps inputData invoked = (invoked', Resolved output) ->
  invoked' = (invoked ++ steps)%list.
Proof.
  induction steps as [|s rest IH]; intros inputData invoked invoked' output H;
    simpl in H.
  - injection H as <- _. now rewrite app_nil_r.
  - destruct (run_step s inputData) as [out|message]; [|discriminate H].
    rewrite (IH _ _ _ _ H), <- app_assoc. reflexivity.
Qed.

(** Any run has started a prefix of the steps, in order: no step twice, and
    none out of turn. *)
Lemma run_steps_prefix steps : forall inputData invoked,
  exists k, fst (run_steps steps inputData invoked) = (invoked ++ firstn k steps)%list.
Proof.
  induction steps as [|s rest IH]; intros inputData invoked; simpl.
  - exists 0%nat. now rewrite app_nil_r.
  - destruct (run_step s inputData) as [out|message].
    + destruct (IH out (invoked ++ [s])%list) as [k Hk].
      exists (S k). rewrite Hk, <- app_assoc. reflexivity.
    + exists 1%nat. reflexivity.
Qed.

Lemma start_success w steps inputData invoked output :
  sequential (stepFlow w) = Some steps ->
  start w inputData = Some (invoked, Resolved output) -> invoked = steps.
Proof.
  unfold start. intros -> H. injection H as H.
  exact (run_steps_success _ _ _ _ _ H).
Qed.

Lemma start_prefix w steps inputData :
  sequential (stepFlow w) = Some steps ->
  exists invoked result k,
    start w inputData = Some (invoked, result) /\ invoked = firstn k steps.
Proof.
  unfold start. intros ->.
  destruct (run_steps_prefix steps inputData []) as [k Hk].
  destruct (run_steps steps inputData []) as [invoked result].
  exists invoked, result, k. split; [reflexivity|exact Hk].
Qed.

End WorkflowFacts.

Import Workflows.

(** C7. The workflow is declared as thirteen [.then] entries and nothing
    else: the seven agent steps Intake, A, B, C, D, E, F in that order,
    with the six bridges between them, one before each phase step.  Its
    graph has no branch, loop or parallel entry.  Every run starts a
    prefix of those steps in that order, and a run that succeeds has
    started each of the thirteen exactly once.  With the agents of
    [createPhaseAgentsWithMemory] the thirteen step ids are distinct. *)
Theorem workflow_is_a_fixed_linear_chain
    (JSON_stringify : json -> string) (agents : ResearchExecutionAgents) :
  let w := createResearchExecutionWorkflow JSON_stringify agents in
  let steps := pipeline JSON_stringify agents in
  stepFlow w = map EThen steps
  /\ sequential (stepFlow w) = Some steps
  /\ committed w = true
  /\ length steps = 13%nat
  /\ length (filter is_agent_step steps) = 7%nat
  /\ length (filter is_bridge_step steps) = 6%nat
  /\ map is_agent_step steps
     = [true; false; true; false; true; false; true; false; true; false;
        true; false; true]
  /\ filter is_agent_step steps
     = [ AgentStep (intakeAgent agents) IntakeOutputSchema;
         AgentStep (phaseAAgent agents) PhaseAOutputSchema;
         AgentStep (phaseBAgent agents) PhaseBOutputSchema;
         AgentStep (phaseCAgent agents) PhaseCOutputSchema;
         AgentStep (phaseDAgent agents) PhaseDOutputSchema;
         AgentStep (phaseEAgent agents) PhaseEOutputSchema;
         AgentStep (phaseFAgent agents) PhaseFOutputSchema ]
  /\ map step_id (filter is_bridge_step steps)
     = [ "bridge-intake-to-a"; "bridge-a-to-b"; "bridge-b-to-c";
         "bridge-c-to-d"; "bridge-d-to-e"; "bridge-e-to-f" ]
  /\ (forall inputData, exists invoked result k,
        start w inputData = Some (invoked, result)
        /\ invoked = firstn k steps)
  /\ (forall inputData invoked output,
        start w inputData = Some (invoked, Resolved output) -> invoked = steps)
  /\ (forall model,
        agents = createPhaseAgentsWithMemory model ->
        map step_id steps
        = [ "intake-agent"; "bridge-intake-to-a"; "phase-a-agent"; "bridge-a-to-b";
            "phase-b-agent"; "bridge-b-to-c"; "phase-c-agent"; "bridge-c-to-d";
            "phase-d-agent"; "bridge-d-to-e"; "phase-e-agent"; "bridge-e-to-f";
            "phase-f-agent" ]
        /\ NoDup (map step_id steps)).
Proof.
  intros w steps.
  assert (Hflow : stepFlow w = map EThen steps) by reflexivity.
  assert (Hseq : sequential (stepFlow w) = Some steps).
  { rewrite Hflow. apply WorkflowFacts.sequential_then. }
  split; [exact Hflow|]. split; [exact Hseq|].
  do 7 (split; [reflexivity|]).
  split; [|split].
  - intro inputData. now apply WorkflowFacts.start_prefix.
  - intros inputData invoked output. now apply WorkflowFacts.start_success.
  - intros model ->.
    assert (Hids : map step_id
                     (pipeline JSON_stringify (createPhaseAgentsWithMemory model))
                   = [ "intake-agent"; "bridge-intake-to-a"; "phase-a-agent";
                       "bridge-a-to-b"; "phase-b-agent"; "bridge-b-to-c";
                       "phase-c-agent"; "bridge-c-to-d"; "phase-d-agent";
                       "bridge-d-to-e"; "phase-e-agent"; "bridge-e-to-f";
                       "phase-f-agent" ]) by reflexivity.
    split; [exact Hids|]. subst steps. rewrite Hids.
    repeat (constructor; [simpl; intuition discriminate|]). constructor.
Qed.

Lemma workflow_is_a_fixed_linear_chain_witness :
  let agents := createPhaseAgentsWithMemory Samples.sample_model in
  exists output,
    start (createResearchExecutionWorkflow Samples.sample_stringify agents)
      (JObj [("prompt", JStr "Validate demand for a $25k/month B2B tool in 60 days")])
    = Some (pipeline Samples.sample_stringify agents, Resolved output)
    /\ get "phase" output = Some (JStr "F")
    /\ get "timeHorizonDays" output = Some (JNum 60).
Proof.
  intro agents.
  destruct (workflow_is_a_fixed_linear_chain Samples.sample_stringify agents)
    as (_ & _ & _ & _ & _ & _ & _ & _ & _ & _ & Hsuccess & _).
  destruct (start (createResearchExecutionWorkflow Samples.sample_stringify agents)
              (JObj [("prompt", JStr "Validate demand for a $25k/month B2B tool in 60 days")]))
    as [[invoked [output|message]]|] eqn:E.
  - exists output. rewrite (Hsuccess _ _ _ E).
    split; [reflexivity|].
    pose proof (f_equal (option_map snd) E) as Hout.
    vm_compute in Hout. injection Hout as <-. split; reflexivity.
  - vm_compute in E. discriminate E.
  - vm_compute in E. discriminate E.
Defined.

(* ================================================================== *)
(** * The run-research-execution-workflow tool *)
(* ================================================================== *)

Import ResearchAgent.

(** The tool awaits [run.start] for as long as it takes and reports what
    it settles with: it never cancels, and its result does not depend on
    the time that has passed. *)
Lemma execute_waits_for_the_run (workflow : ResearchExecutionWorkflowHandle)
    (run_ : Run) (prompt : string) (context : Context) :
  createRun workflow tt = Resolved run_ ->
  let e := execute (SourceHandle workflow) prompt context in
  let waited := start run_ prompt (request_context (runId run_)) in
  elapsed_ms e = fst waited
  /\ calls e = [CallCreateRun; CallStart prompt (request_context (runId run_))]
  /\ settled e = match snd waited with
                 | Rejected message => Rejected message
                 | Resolved outcome => Resolved (report outcome)
                 end.
Proof.
  intro Hrun. unfold execute. simpl. rewrite Hrun.
  destruct (start run_ prompt (request_context (runId run_))) as [elapsed outcome].
  simpl. repeat split.
Qed.

(** C2, on the code.  A run that takes eleven minutes, past the ten-minute
    budget, is not cancelled, and the tool returns the ordinary success
    report after those eleven minutes: no timeout message, no status of
    its own.  No execution of the tool cancels a run. *)
Theorem run_past_the_budget_is_not_cancelled :
  let e := execute (SourceHandle Samples.slow_workflow)
             "Validate demand for a $25k/month B2B tool in 60 days"
             {| mastra := None |} in
  (RUN_BUDGET_MS < elapsed_ms e)%Z
  /\ calls e = [CallCreateRun;
                CallStart "Validate demand for a $25k/month B2B tool in 60 days"
                  (request_context "run-1")]
  /\ settled e
     = Resolved
         {| run := true;
            tool_status := Some "success";
            tool_result := Some (JObj Samples.recordF);
            tool_error := None;
            message := "Pipeline completed successfully (Phases A→F). Final result is below; tell the user in this chat." |}
  /\ (forall source prompt context, ~ In CallCancel (calls (execute source prompt context))).
Proof.
  split; [reflexivity|]. split; [reflexivity|]. split; [reflexivity|].
  intros source prompt context. unfold execute.
  destruct (resolveWorkflow source context) as [workflow|]; [|simpl; tauto].
  destruct (createRun workflow tt) as [run_|message].
  - destruct (start run_ prompt (request_context (runId run_))) as [elapsed outcome].
    simpl. intros [H|[H|H]]; [discriminate H|discriminate H|exact H].
  - simpl. intros [H|H]; [discriminate H|exact H].
Qed.

(* ================================================================== *)
(** * Further facts about the zod parser *)
(* ================================================================== *)

Module ZodMore.
Import Js Zod.

Lemma accepts_enum (values : list string) v :
  accepts (ZEnum values) v = true <-> exists x, v = Some (JStr x) /\ In x values.
Proof.
  unfold accepts. simpl. split.
  - destruct v as [[| | |x| |]|]; try discriminate.
    destruct (existsb (String.eqb x) values) eqn:E; [|discriminate].
    intros _. exists x. split; [reflexivity|].
    apply existsb_exists in E. destruct E as (y & Hin & Heq).
    apply String.eqb_eq in Heq. now subst.
  - intros (x & -> & Hin).
    replace (existsb (String.eqb x) values) with true; [reflexivity|].
    symmetry. apply existsb_exists. exists x. split; [exact Hin|apply String.eqb_refl].
Qed.

Lemma accepts_any_string v :
  accepts (ZString None None) v = true <-> exists x, v = Some (JStr x).
Proof.
  unfold accepts. simpl. split.
  - destruct v as [[| | |x| |]|]; try discriminate. intros _. now exists x.
  - now intros (x & ->).
Qed.

Lemma accepts_boolean v :
  accepts ZBoolean v = true <-> exists b, v = Some (JBool b).
Proof.
  unfold accepts. simpl. split.
  - destruct v as [[|b| | | |]|]; try discriminate. intros _. now exists b.
  - now intros (b & ->).
Qed.

(** An optional schema accepts an absent value, and a present one exactly
    when the inner schema does; [null] is a present value. *)
Lemma accepts_optional inner v :
  accepts (ZOptional inner) v = match v with
                                | None => true
                                | Some _ => accepts inner v
                                end.
Proof. unfold accepts. simpl. now destruct v. Qed.

Lemma parse_items_accepts element items :
  match parse_items parse element items with Some _ => true | None => false end
  = forallb (fun x => accepts element (Some x)) items.
Proof.
  induction items as [|x rest IH]; simpl; [reflexivity|].
  unfold accepts at 1.
  destruct (parse element (Some x)) as [|out]; simpl; [reflexivity|].
  rewrite <- IH. now destruct (parse_items parse element rest).
Qed.

(** An array schema accepts the arrays whose length is within the bounds
    and whose every item the element schema accepts. *)
Lemma accepts_array element lo hi v :
  accepts (ZArray element lo hi) v = true
  <-> exists items, v = Some (JArr items)
                    /\ at_least lo (length items) = true
                    /\ at_most hi (length items) = true
                    /\ Forall (fun x => accepts element (Some x) = true) items.
Proof.
  unfold accepts at 1. simpl. split.
  - destruct v as [[| | | |items|]|]; try discriminate.
    destruct (at_least lo (length items)) eqn:E1; [|discriminate].
    destruct (at_most hi (length items)) eqn:E2; [|discriminate]. simpl.
    pose proof (parse_items_accepts element items) as H.
    destruct (parse_items parse element items); [|discriminate].
    intros _. exists items. repeat split; try assumption.
    apply Forall_forall. symmetry in H. rewrite forallb_forall in H. exact H.
  - intros (items & -> & -> & -> & Hall). simpl.
    pose proof (parse_items_accepts element items) as H.
    destruct (parse_items parse element items); [reflexivity|].
    symmetry in H. rewrite Forall_forall in Hall.
    rewrite (proj2 (forallb_forall _ _) Hall) in H. discriminate H.
Qed.

End ZodMore.

(* ================================================================== *)
(** * Further properties of the phase records *)
(* ================================================================== *)

(** A field the schema requires as a plain string is present in an
    accepted record, as a string. *)
Lemma string_field_present s r k :
  accepts s (Some r) = true -> field s k = Some z_string ->
  exists x, get k r = Some (JStr x).
Proof.
  intros Hacc Hf.
  apply ZodMore.accepts_any_string. exact (ZodFacts.accepts_field _ _ _ _ Hacc Hf).
Qed.

Lemma boolean_field_present s r k :
  accepts s (Some r) = true -> field s k = Some z_boolean ->
  exists b, get k r = Some (JBool b).
Proof.
  intros Hacc Hf.
  apply ZodMore.accepts_boolean. exact (ZodFacts.accepts_field _ _ _ _ Hacc Hf).
Qed.

(** X1. A record that the output schema of any phase accepts carries the
    Phase A fields with their types: [accepted] is a boolean,
    [businessGoal] a string, [researchType] one of the five research types
    spelled exactly, [mode] is "commercial" or "product", and
    [rejectedReason] is absent or a string. *)
Theorem phase_A_fields_are_typed (n : phase) (r : json) :
  accepts (output_schema n) (Some r) = true ->
  (exists b, get "accepted" r = Some (JBool b))
  /\ (exists g, get "businessGoal" r = Some (JStr g))
  /\ (exists t, get "researchType" r = Some (JStr t)
                /\ In t [ "Commercial Opportunity Research";
                          "Product Market Fit Validation";
                          "Technology-to-Business Research";
                          "Investment Opportunity Research";
                          "Internal Problem-Solving Research" ])
  /\ (exists m, get "mode" r = Some (JStr m) /\ (m = "commercial" \/ m = "product"))
  /\ (get "rejectedReason" r = None \/ exists s, get "rejectedReason" r = Some (JStr s)).
Proof.
  intro Hacc.
  split; [apply (boolean_field_present _ _ _ Hacc); destruct n; reflexivity|].
  split; [apply (string_field_present _ _ _ Hacc); destruct n; reflexivity|].
  split.
  { apply ZodMore.accepts_enum.
    apply (ZodFacts.accepts_field _ _ _ _ Hacc). destruct n; reflexivity. }
  split.
  { assert (H : accepts (z_enum ["commercial"; "product"]) (get "mode" r) = true).
    { apply (ZodFacts.accepts_field _ _ _ _ Hacc). destruct n; reflexivity. }
    apply ZodMore.accepts_enum in H. destruct H as (m & Hm & Hin).
    exists m. split; [exact Hm|]. simpl in Hin.
    destruct Hin as [<-|[<-|[]]]; [now left|now right]. }
  assert (H : accepts (optional z_string) (get "rejectedReason" r) = true).
  { apply (ZodFacts.accepts_field _ _ _ _ Hacc). destruct n; reflexivity. }
  unfold optional in H. rewrite ZodMore.accepts_optional in H.
  destruct (get "rejectedReason" r) as [v|]; [right|now left].
  now apply ZodMore.accepts_any_string in H.
Qed.

Lemma phase_A_fields_are_typed_witness :
  exists t, get "researchType" (JObj Samples.recordD) = Some (JStr t)
            /\ In t [ "Commercial Opportunity Research";
                      "Product Market Fit Validation";
                      "Technology-to-Business Research";
                      "Investment Opportunity Research";
                      "Internal Problem-Solving Research" ].
Proof.
  assert (Hacc : accepts (output_schema PhD) (Some (JObj Samples.recordD)) = true)
    by (vm_compute; reflexivity).
  exact (proj1 (proj2 (proj2 (phase_A_fields_are_typed PhD _ Hacc)))).
Defined.

(** X2. A record that the schema of Phase D, E or F accepts has between one
    and three methods, each with its hypothesis, expected business effect,
    failure condition and proof threshold as strings, and a
    [methodsJustification] string. *)
Theorem methods_are_one_to_three (n : phase) (r : json) :
  (index PhD <= index n)%nat ->
  accepts (output_schema n) (Some r) = true ->
  (exists j, get "methodsJustification" r = Some (JStr j))
  /\ exists methods,
       get "methods" r = Some (JArr methods)
       /\ (1 <= length methods)%nat /\ (length methods <= 3)%nat
       /\ Forall (fun m =>
                    (exists x, get "hypothesis" m = Some (JStr x))
                    /\ (exists x, get "expectedBusinessEffect" m = Some (JStr x))
                    /\ (exists x, get "failureCondition" m = Some (JStr x))
                    /\ (exists x, get "proofThreshold" m = Some (JStr x)))
            methods.
Proof.
  intros Hn Hacc.
  split.
  { apply (string_field_present _ _ _ Hacc).
    destruct n; simpl in Hn; try lia; reflexivity. }
  assert (H : accepts (max_length 3 (min_length 1 (z_array MethodSchema)))
                (get "methods" r) = true).
  { apply (ZodFacts.accepts_field _ _ _ _ Hacc).
    destruct n; simpl in Hn; try lia; reflexivity. }
  apply ZodMore.accepts_array in H.
  destruct H as (methods & Hm & Hlo & Hhi & Hall).
  exists methods. split; [exact Hm|].
  cbn -[Nat.leb] in Hlo, Hhi. apply Nat.leb_le in Hlo, Hhi.
  split; [exact Hlo|]. split; [exact Hhi|].
  eapply Forall_impl; [|exact Hall]. intros m Hmacc. cbv beta in Hmacc.
  repeat split; apply (string_field_present _ _ _ Hmacc); reflexivity.
Qed.

Lemma methods_are_one_to_three_witness :
  exists methods,
    get "methods" (JObj Samples.recordF) = Some (JArr methods)
    /\ (1 <= length methods)%nat /\ (length methods <= 3)%nat.
Proof.
  assert (Hn : (index PhD <= index PhF)%nat) by (simpl; lia).
  assert (Hacc : accepts (output_schema PhF) (Some (JObj Samples.recordF)) = true)
    by (vm_compute; reflexivity).
  destruct (methods_are_one_to_three PhF _ Hn Hacc)
    as (_ & methods & Hm & Hlo & Hhi & _).
  exists methods. auto.
Defined.

(** X3. A record that the schema of Phase E or F accepts has a
    [handoffPackage] object whose nine required parts are all present as
    strings, whose [cycleRiskFlag] is absent or a boolean, and a boolean
    [handoffWithinPageLimit]. *)
Theorem handoff_package_is_complete (n : phase) (r : json) :
  (index PhE <= index n)%nat ->
  accepts (output_schema n) (Some r) = true ->
  (exists b, get "handoffWithinPageLimit" r = Some (JBool b))
  /\ exists package,
       get "handoffPackage" r = Some package
       /\ Forall (fun k => exists x, get k package = Some (JStr x))
            [ "researchGoal"; "researchType"; "icpAndBuyerRole";
              "initialPaidEngagement"; "methodsWithHypothesesAndProof";
              "validationAlgorithm"; "businessAndMoneyLogic";
              "risksAndLimitations"; "sourcesOrLinks" ]
       /\ (get "cycleRiskFlag" package = None
           \/ exists b, get "cycleRiskFlag" package = Some (JBool b)).
Proof.
  intros Hn Hacc.
  split.
  { apply (boolean_field_present _ _ _ Hacc).
    destruct n; simpl in Hn; try lia; reflexivity. }
  assert (Hf : exists fs, field (output_schema n) "handoffPackage" = Some fs
                          /\ field PhaseEOutputSchema "handoffPackage" = Some fs).
  { destruct n; simpl in Hn; try lia; eexists; split; reflexivity. }
  destruct Hf as (fs & Hfn & HfE).
  pose proof (ZodFacts.accepts_field _ _ _ _ Hacc Hfn) as Hp.
  vm_compute in HfE. injection HfE as <-.
  destruct (ZodFacts.accepts_object_inv _ _ Hp) as [props Hprops].
  destruct (get "handoffPackage" r) as [package|]; [|discriminate Hprops].
  exists package. split; [reflexivity|]. split.
  - repeat (constructor;
            [apply (string_field_present _ _ _ Hp); reflexivity|]).
    constructor.
  - assert (H : accepts (optional z_boolean) (get "cycleRiskFlag" package) = true)
      by (apply (ZodFacts.accepts_field _ _ _ _ Hp); reflexivity).
    unfold optional in H. rewrite ZodMore.accepts_optional in H.
    destruct (get "cycleRiskFlag" package) as [v|]; [right|now left].
    now apply ZodMore.accepts_boolean in H.
Qed.

Lemma handoff_package_is_complete_witness :
  exists package,
    get "handoffPackage" (JObj Samples.recordE) = Some package
    /\ exists x, get "validationAlgorithm" package = Some (JStr x).
Proof.
  assert (Hn : (index PhE <= index PhE)%nat) by (simpl; lia).
  assert (Hacc : accepts (output_schema PhE) (Some (JObj Samples.recordE)) = true)
    by (vm_compute; reflexivity).
  destruct (handoff_package_is_complete PhE _ Hn Hacc)
    as (_ & package & Hp & Hall & _).
  exists package. split; [exact Hp|].
  rewrite Forall_forall in Hall. apply Hall. simpl. tauto.
Defined.

(** X4. A record that the Phase F schema accepts has [status] SUCCESS,
    PARTIAL_SUCCESS or FAIL, spelled exactly so, and an [executorFeedback]
    object with a [primaryReason] string and a
    [whatWouldHaveChangedResult] that is absent or a string. *)
Theorem phase_F_verdict_is_one_of_three (r : json) :
  accepts PhaseFOutputSchema (Some r) = true ->
  (exists s, get "status" r = Some (JStr s)
             /\ (s = "SUCCESS" \/ s = "PARTIAL_SUCCESS" \/ s = "FAIL"))
  /\ exists feedback,
       get "executorFeedback" r = Some feedback
       /\ (exists x, get "primaryReason" feedback = Some (JStr x))
       /\ (get "whatWouldHaveChangedResult" feedback = None
           \/ exists x, get "whatWouldHaveChangedResult" feedback = Some (JStr x)).
Proof.
  intro Hacc. split.
  - assert (H : accepts (z_enum ["SUCCESS"; "PARTIAL_SUCCESS"; "FAIL"])
                  (get "status" r) = true)
      by (apply (ZodFacts.accepts_field _ _ _ _ Hacc); reflexivity).
    apply ZodMore.accepts_enum in H. destruct H as (s & Hs & Hin).
    exists s. split; [exact Hs|]. simpl in Hin. intuition.
  - assert (Hf : exists fs, field PhaseFOutputSchema "executorFeedback" = Some fs)
      by (eexists; reflexivity).
    destruct Hf as (fs & Hf).
    pose proof (ZodFacts.accepts_field _ _ _ _ Hacc Hf) as Hp.
    vm_compute in Hf. injection Hf as <-.
    destruct (ZodFacts.accepts_object_inv _ _ Hp) as [props Hprops].
    destruct (get "executorFeedback" r) as [feedback|]; [|discriminate Hprops].
    exists feedback. split; [reflexivity|]. split.
    + apply (string_field_present _ _ _ Hp); reflexivity.
    + assert (H : accepts (optional z_string)
                    (get "whatWouldHaveChangedResult" feedback) = true)
        by (apply (ZodFacts.accepts_field _ _ _ _ Hp); reflexivity).
      unfold optional in H. rewrite ZodMore.accepts_optional in H.
      destruct (get "whatWouldHaveChangedResult" feedback) as [v|]; [right|now left].
      now apply ZodMore.accepts_any_string in H.
Qed.

Lemma phase_F_verdict_is_one_of_three_witness :
  exists s, get "status" (JObj Samples.recordF) = Some (JStr s)
            /\ (s = "SUCCESS" \/ s = "PARTIAL_SUCCESS" \/ s = "FAIL").
Proof.
  assert (Hacc : accepts PhaseFOutputSchema (Some (JObj Samples.recordF)) = true)
    by (vm_compute; reflexivity).
  exact (proj1 (phase_F_verdict_is_one_of_three _ Hacc)).
Defined.

Module ObjectFacts.
Import Objects.

Lemma lookup_delete_prop {A : Type} (k k0 : string) (props : list (string * A)) :
  lookup k (delete_prop k0 props) = if String.eqb k k0 then None else lookup k props.
Proof.
  induction props as [|[k1 v1] rest IH]; simpl.
  - now destruct (String.eqb k k0).
  - destruct (String.eqb_spec k0 k1) as [->|Hne]; simpl.
    + rewrite IH. destruct (String.eqb_spec k k1); reflexivity.
    + rewrite IH. destruct (String.eqb_spec k k1) as [->|_]; [|reflexivity].
      destruct (String.eqb_spec k1 k0); [congruence|reflexivity].
Qed.

(** With distinct keys, a listed property is the one [lookup] finds. *)
Lemma lookup_of_In {A : Type} (k : string) (v : A) props :
  NoDup (map fst props) -> In (k, v) props -> lookup k props = Some v.
Proof.
  induction props as [|[k1 v1] rest IH]; simpl; [contradiction|].
  intros Hnd [Heq|Hin].
  - injection Heq as -> ->. now rewrite String.eqb_refl.
  - inversion Hnd as [|? ? Hnotin Hrest]; subst.
    destruct (String.eqb_spec k k1) as [->|_].
    + exfalso. apply Hnotin. change k1 with (fst (k1, v)). now apply in_map.
    + now apply IH.
Qed.

Lemma phase_field_names_distinct n : NoDup (field_names (output_schema n)).
Proof.
  destruct n; vm_compute;
    repeat (constructor; [simpl; intuition discriminate|]); constructor.
Qed.

Lemma field_of_In n k fs :
  In (k, fs) (shape_of (output_schema n)) -> field (output_schema n) k = Some fs.
Proof. apply lookup_of_In, phase_field_names_distinct. Qed.

(** No field of a phase schema accepts [null], and the fields that accept
    an absent value are the optional ones. *)
Lemma phase_field_absent_or_null n k fs :
  field (output_schema n) k = Some fs ->
  accepts fs None = is_optional fs /\ accepts fs (Some JNull) = false.
Proof.
  intro Hf. apply JsFacts.lookup_In in Hf.
  destruct n; vm_compute in Hf;
    repeat (destruct Hf as [Heq|Hf]; [injection Heq as <- <-; split; reflexivity|]);
    contradiction.
Qed.

Lemma fields_kept_below n m k fs :
  (index m <= index n)%nat ->
  field (output_schema m) k = Some fs -> k <> "phase" ->
  field (output_schema n) k = Some fs.
Proof.
  intros Hle Hf Hk.
  destruct n, m; simpl in Hle; try lia; try exact Hf;
    repeat (first [ exact Hf
                  | eapply PhaseFacts.fields_kept; [reflexivity| |exact Hk] ]).
Qed.

End ObjectFacts.

Import Objects.

(** X5. In a record a phase schema accepts, exactly the optional fields may
    be left out: deleting a field of the schema leaves the record accepted
    when the field is optional and makes it refused otherwise.  [null] is
    not a way to leave a field out: with any field of the schema set to
    [null] the record is refused. *)
Theorem only_optional_fields_may_be_absent
    (n : phase) (props : list (string * json)) (k : string) (fs : schema) :
  accepts (output_schema n) (Some (JObj props)) = true ->
  field (output_schema n) k = Some fs ->
  accepts (output_schema n) (Some (JObj (delete_prop k props))) = is_optional fs
  /\ accepts (output_schema n) (Some (JObj (set_prop k JNull props))) = false.
Proof.
  intros Hacc Hf.
  destruct (ObjectFacts.phase_field_absent_or_null n k fs Hf) as [Habsent Hnull].
  pose proof (JsFacts.lookup_In _ _ _ Hf) as Hin.
  rewrite (PhaseFacts.output_schema_is_object n) in Hacc |- *.
  split.
  - destruct (is_optional fs) eqn:Hopt.
    + apply ZodFacts.accepts_fields_intro. intros k' fs' Hin'.
      rewrite ObjectFacts.lookup_delete_prop.
      destruct (String.eqb_spec k' k) as [->|_].
      * pose proof (ObjectFacts.field_of_In n k fs' Hin') as Hf'.
        rewrite Hf in Hf'. injection Hf' as <-. exact Habsent.
      * exact (ZodFacts.accepts_fields_elim _ _ _ _ Hacc Hin').
    + destruct (accepts _ (Some (JObj (delete_prop k props)))) eqn:E; [|reflexivity].
      pose proof (ZodFacts.accepts_fields_elim _ _ _ _ E Hin) as H.
      rewrite ObjectFacts.lookup_delete_prop, String.eqb_refl, Habsent in H.
      discriminate H.
  - destruct (accepts _ (Some (JObj (set_prop k JNull props)))) eqn:E; [|reflexivity].
    pose proof (ZodFacts.accepts_fields_elim _ _ _ _ E Hin) as H.
    rewrite JsFacts.lookup_set_prop, String.eqb_refl, Hnull in H.
    discriminate H.
Qed.

Lemma only_optional_fields_may_be_absent_witness :
  accepts PhaseCOutputSchema
    (Some (JObj (delete_prop "cycleRiskOrNoGo"
                   (set_prop "cycleRiskOrNoGo" (JBool true) Samples.recordC)))) = true
  /\ accepts PhaseCOutputSchema
       (Some (JObj (delete_prop "costLimitUsd" Samples.recordC))) = false.
Proof.
  split.
  - assert (Hacc : accepts (output_schema PhC)
                     (Some (JObj (set_prop "cycleRiskOrNoGo" (JBool true)
                                    Samples.recordC))) = true)
      by (vm_compute; reflexivity).
    exact (proj1 (only_optional_fields_may_be_absent PhC _ "cycleRiskOrNoGo"
                    (optional z_boolean) Hacc eq_refl)).
  - assert (Hacc : accepts (output_schema PhC) (Some (JObj Samples.recordC)) = true)
      by (vm_compute; reflexivity).
    exact (proj1 (only_optional_fields_may_be_absent PhC _ "costLimitUsd"
                    (max_value 500 z_number) Hacc eq_refl)).
Defined.

(** X6. The cumulative record reads downwards: a record that the schema
    of phase [n] accepts is, once its [phase] is set back to the letter of
    an earlier phase [m], accepted by the schema of [m]. *)
Theorem later_record_is_an_earlier_record
    (n m : phase) (props : list (string * json)) :
  (index m <= index n)%nat ->
  accepts (output_schema n) (Some (JObj props)) = true ->
  accepts (output_schema m)
    (Some (JObj (set_prop "phase" (JStr (letter m)) props))) = true.
Proof.
  intros Hle Hacc.
  rewrite (PhaseFacts.output_schema_is_object m).
  apply ZodFacts.accepts_fields_intro. intros k fs Hin.
  pose proof (ObjectFacts.field_of_In m k fs Hin) as Hf.
  rewrite JsFacts.lookup_set_prop.
  destruct (String.eqb_spec k "phase") as [->|Hk].
  - rewrite PhaseFacts.phase_field in Hf. injection Hf as <-.
    apply ZodFacts.accepts_string_literal. reflexivity.
  - pose proof (ObjectFacts.fields_kept_below n m k fs Hle Hf Hk) as Hfn.
    exact (ZodFacts.accepts_field _ _ _ _ Hacc Hfn).
Qed.

Lemma later_record_is_an_earlier_record_witness :
  accepts PhaseBOutputSchema
    (Some (JObj (set_prop "phase" (JStr "B") Samples.recordF))) = true.
Proof.
  apply (later_record_is_an_earlier_record PhF PhB).
  - simpl. lia.
  - vm_compute. reflexivity.
Defined.

(* ================================================================== *)
(** * Further facts about [trim] *)
(* ================================================================== *)

Module TrimFacts.
Import Objects.

Lemma trim_start_head s : head_not_white (trim_start s).
Proof.
  induction s as [|c rest IH]; simpl; [exact I|].
  destruct (is_white_space c) eqn:E; [exact IH|exact E].
Qed.

Lemma trim_start_fixed s : head_not_white s -> trim_start s = s.
Proof. destruct s as [|c rest]; simpl; [reflexivity|]. now intros ->. Qed.

Lemma trim_start_suffix s : exists p, s = p ++ trim_start s.
Proof.
  induction s as [|c rest [p IH]]; simpl.
  - now exists "".
  - destruct (is_white_space c).
    + exists (String c p). simpl. now rewrite <- IH.
    + now exists "".
Qed.

Lemma trim_start_empty s : trim_start s = "" <-> all_white_space s = true.
Proof.
  induction s as [|c rest IH]; simpl; [tauto|].
  destruct (is_white_space c); simpl; [exact IH|]. split; discriminate.
Qed.

Lemma append_nil_r s : s ++ "" = s.
Proof. induction s as [|c rest IH]; simpl; [reflexivity|now rewrite IH]. Qed.

Lemma append_assoc a b c : (a ++ b) ++ c = a ++ (b ++ c).
Proof. induction a as [|x rest IH]; simpl; [reflexivity|now rewrite IH]. Qed.

Lemma rev_string_acc s : forall acc, rev_string acc s = rev_string "" s ++ acc.
Proof.
  induction s as [|c rest IH]; intro acc; simpl; [reflexivity|].
  rewrite (IH (String c acc)), (IH (String c "")), append_assoc. reflexivity.
Qed.

Lemma rev_string_app a b : rev_string "" (a ++ b) = rev_string "" b ++ rev_string "" a.
Proof.
  induction a as [|c rest IH]; simpl.
  - now rewrite append_nil_r.
  - rewrite (rev_string_acc (rest ++ b) (String c "")), IH.
    rewrite (rev_string_acc rest (String c "")), append_assoc. reflexivity.
Qed.

Lemma rev_string_involutive s : rev_string "" (rev_string "" s) = s.
Proof.
  induction s as [|c rest IH]; simpl; [reflexivity|].
  rewrite (rev_string_acc rest (String c "")), rev_string_app, IH. reflexivity.
Qed.

Lemma rev_string_empty s : rev_string "" s = "" -> s = "".
Proof.
  intro H. rewrite <- (rev_string_involutive s), H. reflexivity.
Qed.

Lemma all_white_space_app a b :
  all_white_space (a ++ b) = all_white_space a && all_white_space b.
Proof.
  induction a as [|c rest IH]; simpl; [reflexivity|].
  now rewrite IH, andb_assoc.
Qed.

Lemma all_white_space_rev s : all_white_space (rev_string "" s) = all_white_space s.
Proof.
  induction s as [|c rest IH]; simpl; [reflexivity|].
  rewrite (rev_string_acc rest (String c "")), all_white_space_app, IH. simpl.
  rewrite andb_true_r. apply andb_comm.
Qed.

Lemma head_not_white_app a b : a <> "" -> head_not_white (a ++ b) -> head_not_white a.
Proof. destruct a as [|c rest]; simpl; [congruence|auto]. Qed.

(** What [trim] returns neither starts nor ends with white space. *)
Lemma trim_ends s :
  head_not_white (trim s) /\ head_not_white (rev_string "" (trim s)).
Proof.
  unfold trim.
  set (w := trim_start s).
  set (u := trim_start (rev_string "" w)).
  split.
  - destruct (trim_start_suffix (rev_string "" w)) as [p Hp]. fold u in Hp.
    assert (Hw : w = rev_string "" u ++ rev_string "" p).
    { rewrite <- rev_string_app, <- Hp. symmetry. apply rev_string_involutive. }
    destruct (rev_string "" u) as [|c rest] eqn:E; [exact I|].
    apply (head_not_white_app _ (rev_string "" p)); [discriminate|].
    rewrite <- Hw. apply trim_start_head.
  - rewrite rev_string_involutive. apply trim_start_head.
Qed.

(** [trim] leaves a trimmed string alone. *)
Lemma trim_idempotent s : trim (trim s) = trim s.
Proof.
  destruct (trim_ends s) as [Hhead Hlast].
  unfold trim at 1.
  rewrite (trim_start_fixed _ Hhead), (trim_start_fixed _ Hlast).
  apply rev_string_involutive.
Qed.

(** [trim] returns the empty string exactly for white space only. *)
Lemma trim_empty s : trim s = "" <-> all_white_space s = true.
Proof.
  unfold trim. split.
  - intro H. apply rev_string_empty in H.
    apply trim_start_empty in H. rewrite all_white_space_rev in H.
    destruct (trim_start_suffix s) as [p Hp].
    assert (Hs : trim_start s = "").
    { destruct (trim_start s) as [|c rest] eqn:E; [reflexivity|].
      pose proof (trim_start_head s) as Hh. rewrite E in Hh.
      simpl in H, Hh. rewrite Hh in H. discriminate H. }
    now apply trim_start_empty.
  - intro H. apply trim_start_empty in H. rewrite H. reflexivity.
Qed.

End TrimFacts.

(* ================================================================== *)
(** * Further properties of the search tools *)
(* ================================================================== *)

(** X7. The search credential, when there is one, is the trimmed value of
    SERPER_API_KEY: it is not empty, it neither starts nor ends with white
    space, and trimming it again changes nothing.  There is none exactly
    when there is no [process], the variable is unset, or its value is
    white space only. *)
Theorem serper_key_is_trimmed_and_not_empty (process : Process) :
  match getSerperApiKey process with
  | Some key =>
      key <> "" /\ trim key = key
      /\ head_not_white key /\ head_not_white (rev_string "" key)
      /\ exists env value,
           process = Some env /\ lookup "SERPER_API_KEY" env = Some value
           /\ key = trim value
  | None =>
      process = None
      \/ exists env,
           process = Some env
           /\ (lookup "SERPER_API_KEY" env = None
               \/ exists value, lookup "SERPER_API_KEY" env = Some value
                                /\ all_white_space value = true)
  end.
Proof.
  unfold getSerperApiKey.
  destruct process as [env|]; [|now left].
  destruct (lookup "SERPER_API_KEY" env) as [value|] eqn:Hv.
  - destruct (String.eqb_spec (trim value) "") as [He|Hne].
    + right. exists env. split; [reflexivity|]. right. exists value.
      split; [exact Hv|]. now apply TrimFacts.trim_empty.
    + split; [exact Hne|]. split; [apply TrimFacts.trim_idempotent|].
      split; [apply TrimFacts.trim_ends|]. split; [apply TrimFacts.trim_ends|].
      exists env, value. auto.
  - right. exists env. split; [reflexivity|]. now left.
Qed.

(** X8. Every result of the internet-search tool echoes the query; it
    carries an error exactly when it is unsuccessful, and then its result
    list is empty; and it is successful exactly when there is a credential,
    the request is answered, the response is OK and its body parses. *)
Theorem internet_search_result_shape
    (process : Process) (fetch : Fetch) (query : string) (numResults : Q) :
  let out := internetSearchTool.execute process fetch query numResults in
  internetSearchTool.query out = query
  /\ (internetSearchTool.success out = true <-> internetSearchTool.error out = None)
  /\ (internetSearchTool.success out = false -> internetSearchTool.results out = [])
  /\ (internetSearchTool.success out = true
      <-> exists apiKey res data,
            getSerperApiKey process = Some apiKey
            /\ fetch 0%nat (search_request apiKey query numResults) = Resolved res
            /\ ok res = true
            /\ json_body res = Resolved data).
Proof.
  unfold internetSearchTool.execute.
  destruct (getSerperApiKey process) as [apiKey|].
  2: { simpl. repeat split; try discriminate; try reflexivity.
       intros (k & res & data & Hk & _). discriminate Hk. }
  destruct (fetch 0%nat (search_request apiKey query numResults)) as [res|message] eqn:Hf.
  2: { simpl. repeat split; try discriminate; try reflexivity.
       intros (k & res & data & [= <-] & Hr & _). rewrite Hf in Hr. discriminate Hr. }
  destruct (ok res) eqn:Hok; simpl.
  - destruct (json_body res) as [data|message] eqn:Hd; simpl.
    + repeat split; try discriminate; try reflexivity.
      intros _. exists apiKey, res, data. rewrite Hf. auto.
    + repeat split; try discriminate; try reflexivity.
      intros (k & res' & data & [= <-] & Hr & _ & Hj).
      rewrite Hf in Hr. injection Hr as <-. rewrite Hd in Hj. discriminate Hj.
  - assert (Hno : ~ exists k res' data,
                      Some apiKey = Some k
                      /\ fetch 0%nat (search_request k query numResults) = Resolved res'
                      /\ ok res' = true /\ json_body res' = Resolved data).
    { intros (k & res' & data & [= <-] & Hr & Ho & _).
      rewrite Hf in Hr. injection Hr as <-. rewrite Hok in Ho. discriminate Ho. }
    destruct (text res); simpl;
      repeat split; try discriminate; try reflexivity;
      intro H; exfalso; exact (Hno H).
Qed.

Lemma slice0_floor {A : Type} (q : Q) (xs : list A) :
  (0 <= q)%Q -> slice0 q xs = firstn (Z.to_nat (Qfloor q)) xs.
Proof.
  intro H. unfold slice0. rewrite (JsFacts.to_integer_nonneg q H).
  assert (Hf : (0 <= Qfloor q)%Z).
  { rewrite <- (Qfloor_Z 0). now apply Qfloor_resp_le. }
  destruct (Z.ltb_spec (Qfloor q) 0) as [Hlt|_]; [lia|].
  destruct (Z.le_ge_cases (Qfloor q) (Z.of_nat (length xs))) as [Hle|Hge].
  - now rewrite Z.min_l.
  - rewrite Z.min_r by lia. rewrite Nat2Z.id, firstn_all.
    symmetry. apply firstn_all2. lia.
Qed.

(** X9. A successful internet search returns exactly the first
    [floor(numResults)] items of the response, in order, or all of them
    when the response has fewer: a fractional count is rounded down, and
    nothing is padded or dropped beyond that. *)
Theorem internet_search_returns_the_leading_items
    (process : Process) (fetch : Fetch) (query apiKey : string) (numResults : Q)
    (res : Response) (data : SearchData) :
  getSerperApiKey process = Some apiKey ->
  fetch 0%nat (search_request apiKey query numResults) = Resolved res ->
  ok res = true -> json_body res = Resolved data ->
  (0 <= numResults)%Q ->
  let out := internetSearchTool.execute process fetch query numResults in
  let items := nullish (organic data) [] in
  internetSearchTool.success out = true
  /\ internetSearchTool.results out
     = map to_result (firstn (Z.to_nat (Qfloor numResults)) items)
  /\ length (internetSearchTool.results out)
     = Nat.min (Z.to_nat (Qfloor numResults)) (length items).
Proof.
  intros Hkey Hf Hok Hd Hn. unfold internetSearchTool.execute.
  rewrite Hkey, Hf, Hok. simpl. rewrite Hd. simpl.
  rewrite (slice0_floor _ _ Hn).
  split; [reflexivity|]. split; [reflexivity|].
  now rewrite length_map, length_firstn.
Qed.

Lemma internet_search_returns_the_leading_items_witness :
  let item t := {| raw_title := Some t; raw_link := None; raw_snippet := None |} in
  let response := {| ok := true; statusText := "OK"; text := Resolved "";
                     json_body := Resolved {| organic := Some [item "a"; item "b"; item "c"] |} |} in
  map title
    (internetSearchTool.results
       (internetSearchTool.execute (Some [("SERPER_API_KEY", "key")])
          (fun _ _ => Resolved response) "pricing" (5 # 2)))
  = ["a"; "b"].
Proof.
  intros item response.
  destruct (internet_search_returns_the_leading_items
              (Some [("SERPER_API_KEY", "key")]) (fun _ _ => Resolved response)
              "pricing" "key" (5 # 2) response
              {| organic := Some [item "a"; item "b"; item "c"] |}
              eq_refl eq_refl eq_refl eq_refl)
    as (_ & -> & _).
  - discriminate.
  - reflexivity.
Defined.

(** X10. Each search tool reads the network only through its own
    requests.  The internet-search tool sends one request, for its query
    and count; the deep-research tool sends one request per query, the
    [i]-th for the [i]-th query and three results, all with the trimmed
    credential.  Two networks that answer those requests alike give the
    same output. *)
Theorem search_tools_read_only_their_own_requests
    (process : Process) (fetch fetch' : Fetch) (apiKey : string) :
  getSerperApiKey process = Some apiKey ->
  (forall query numResults,
      fetch 0%nat (search_request apiKey query numResults)
      = fetch' 0%nat (search_request apiKey query numResults) ->
      internetSearchTool.execute process fetch query numResults
      = internetSearchTool.execute process fetch' query numResults)
  /\ (forall reasoning queries,
      (forall i q, nth_error queries i = Some q ->
                   fetch i (search_request apiKey q deepResearchTool.numPerQuery)
                   = fetch' i (search_request apiKey q deepResearchTool.numPerQuery)) ->
      deepResearchTool.execute process fetch reasoning queries
      = deepResearchTool.execute process fetch' reasoning queries).
Proof.
  intro Hkey. split.
  - intros query numResults H. unfold internetSearchTool.execute.
    now rewrite Hkey, H.
  - intros reasoning queries H. unfold deepResearchTool.execute. rewrite Hkey.
    f_equal. rewrite !SearchFacts.run_queries_spec. f_equal.
    assert (Hgen : forall i0,
               (forall i q, nth_error queries i = Some q ->
                  fetch (i0 + i)%nat (search_request apiKey q deepResearchTool.numPerQuery)
                  = fetch' (i0 + i)%nat (search_request apiKey q deepResearchTool.numPerQuery)) ->
               map (fun jq => deepResearchTool.finding_for fetch apiKey (fst jq) (snd jq))
                 (combine (seq i0 (length queries)) queries)
               = map (fun jq => deepResearchTool.finding_for fetch' apiKey (fst jq) (snd jq))
                   (combine (seq i0 (length queries)) queries)).
    { clear H. induction queries as [|q rest IH]; intros i0 H; simpl; [reflexivity|].
      f_equal.
      - unfold deepResearchTool.finding_for.
        pose proof (H 0%nat q eq_refl) as H0. rewrite Nat.add_0_r in H0.
        now rewrite H0.
      - apply IH. intros i q' Hq. specialize (H (S i) q' Hq).
        now rewrite Nat.add_succ_r in H. }
    apply Hgen. exact H.
Qed.

Lemma search_tools_read_only_their_own_requests_witness :
  deepResearchTool.execute (Some [("SERPER_API_KEY", "key")])
    (fun i _ => if (i <? 2)%nat then Rejected "down" else Rejected "never asked")
    "why" ["a"; "b"]
  = deepResearchTool.execute (Some [("SERPER_API_KEY", "key")])
      (fun _ _ => Rejected "down") "why" ["a"; "b"].
Proof.
  apply (proj2 (search_tools_read_only_their_own_requests
                  (Some [("SERPER_API_KEY", "key")])
                  (fun i _ => if (i <? 2)%nat then Rejected "down"
                              else Rejected "never asked")
                  (fun _ _ => Rejected "down") "key" eq_refl)).
  intros i q Hq.
  destruct i as [|[|i]]; [reflexivity|reflexivity|].
  destruct i; discriminate Hq.
Defined.

(** X11. Every result of the deep-research tool echoes the reasoning.  It
    is successful exactly when a credential is configured, whatever the
    searches do, and it carries an error exactly when it is unsuccessful;
    an unsuccessful result has no findings, however many queries were
    given, and the fixed hint to add the key. *)
Theorem deep_research_result_shape
    (process : Process) (fetch : Fetch) (reasoning : string) (queries : list string) :
  let out := deepResearchTool.execute process fetch reasoning queries in
  deepResearchTool.reasoning out = reasoning
  /\ (deepResearchTool.success out = true <-> getSerperApiKey process <> None)
  /\ (deepResearchTool.success out = true <-> deepResearchTool.error out = None)
  /\ (deepResearchTool.success out = false ->
      deepResearchTool.findings out = []
      /\ deepResearchTool.error out = Some "SERPER_API_KEY not set."
      /\ deepResearchTool.synthesisHint out
         = "Add SERPER_API_KEY to .env for live deep research.").
Proof.
  unfold deepResearchTool.execute.
  destruct (getSerperApiKey process) as [apiKey|]; simpl.
  - repeat split; try discriminate; try reflexivity; intro H; discriminate H.
  - repeat split; try discriminate; try reflexivity; intro H; congruence.
Qed.

(** X12. A finding of the deep-research tool has results exactly when its
    own request was answered with an OK response whose body parses and
    lists at least one organic item.  A rejected request, a response that
    is not OK, a body that does not parse and a body without items all
    give the same empty finding. *)
Theorem deep_research_finding_is_empty_on_any_failure
    (process : Process) (fetch : Fetch) (reasoning apiKey : string)
    (queries : list string) (i : nat) (q : string) :
  getSerperApiKey process = Some apiKey ->
  nth_error queries i = Some q ->
  exists finding,
    nth_error (deepResearchTool.findings
                 (deepResearchTool.execute process fetch reasoning queries)) i
    = Some finding
    /\ deepResearchTool.query finding = q
    /\ (deepResearchTool.results finding <> []
        <-> exists res data item rest,
              fetch i (search_request apiKey q deepResearchTool.numPerQuery)
              = Resolved res
              /\ ok res = true
              /\ json_body res = Resolved data
              /\ organic data = Some (item :: rest)).
Proof.
  intros Hkey Hq. unfold deepResearchTool.execute. rewrite Hkey. simpl.
  pose proof (SearchFacts.run_queries_nth fetch apiKey queries 0 [] i q Hq) as H.
  simpl in H. rewrite H. eexists. split; [reflexivity|].
  split; [apply SearchFacts.finding_query|].
  unfold deepResearchTool.finding_for.
  destruct (fetch i (search_request apiKey q deepResearchTool.numPerQuery))
    as [res|message] eqn:Hf; simpl.
  2: { split; [congruence|]. intros (r & d & it & rs & Hr & _). discriminate Hr. }
  destruct (ok res) eqn:Hok.
  2: { simpl. split; [congruence|].
       intros (r & d & it & rs & [= <-] & Ho & _). congruence. }
  destruct (json_body res) as [data|message] eqn:Hd; simpl.
  2: { split; [congruence|].
       intros (r & d & it & rs & [= <-] & _ & Hj & _). congruence. }
  rewrite SearchFacts.slice_per_query.
  destruct (organic data) as [[|item rest]|] eqn:Ho; simpl.
  - split; [congruence|].
    intros (r & d & it & rs & [= <-] & _ & Hj & Hor).
    rewrite Hd in Hj. injection Hj as <-. congruence.
  - split; [|discriminate]. intros _. now exists res, data, item, rest.
  - split; [congruence|].
    intros (r & d & it & rs & [= <-] & _ & Hj & Hor).
    rewrite Hd in Hj. injection Hj as <-. congruence.
Qed.

Lemma deep_research_finding_is_empty_on_any_failure_witness :
  let not_found := {| ok := false; statusText := "Not Found"; text := Resolved "";
                      json_body := Resolved {| organic := Some
                        [{| raw_title := Some "t"; raw_link := None;
                            raw_snippet := None |}] |} |} in
  exists finding,
    nth_error (deepResearchTool.findings
                 (deepResearchTool.execute (Some [("SERPER_API_KEY", "key")])
                    (fun _ _ => Resolved not_found) "why" ["a"; "b"])) 1
    = Some finding
    /\ deepResearchTool.results finding = [].
Proof.
  intro not_found.
  destruct (deep_research_finding_is_empty_on_any_failure
              (Some [("SERPER_API_KEY", "key")]) (fun _ _ => Resolved not_found)
              "why" "key" ["a"; "b"] 1 "b" eq_refl eq_refl)
    as (finding & Hnth & _ & Hiff).
  exists finding. split; [exact Hnth|].
  destruct (deepResearchTool.results finding) as [|x xs] eqn:E; [reflexivity|].
  exfalso.
  destruct (proj1 Hiff ltac:(discriminate)) as (res & d & it & rs & Hr & Ho & _).
  injection Hr as <-. discriminate Ho.
Defined.

(** X13. The two tools agree on one query: when the internet-search tool,
    asked for three results, succeeds on a query, the deep-research tool
    given that query alone returns one finding with the same results; and
    when the internet search fails with a credential configured, that
    finding is empty. *)
Theorem deep_research_of_one_query_is_the_internet_search
    (process : Process) (fetch : Fetch) (reasoning query apiKey : string) :
  getSerperApiKey process = Some apiKey ->
  let single := internetSearchTool.execute process fetch query 3 in
  deepResearchTool.findings (deepResearchTool.execute process fetch reasoning [query])
  = [ {| deepResearchTool.query := query;
         deepResearchTool.results := internetSearchTool.results single |} ].
Proof.
  intro Hkey.
  unfold deepResearchTool.execute, internetSearchTool.execute. rewrite Hkey.
  simpl. unfold deepResearchTool.finding_for, deepResearchTool.numPerQuery.
  destruct (fetch 0%nat (search_request apiKey query 3)) as [res|message];
    [|reflexivity].
  destruct (ok res); simpl.
  - destruct (json_body res) as [data|message]; reflexivity.
  - destruct (text res); reflexivity.
Qed.

Lemma deep_research_of_one_query_is_the_internet_search_witness :
  let response := {| ok := true; statusText := "OK"; text := Resolved "";
                     json_body := Resolved {| organic := Some
                       [{| raw_title := Some "t"; raw_link := Some "l";
                           raw_snippet := Some "s" |}] |} |} in
  map deepResearchTool.results
    (deepResearchTool.findings
       (deepResearchTool.execute (Some [("SERPER_API_KEY", " key ")])
          (fun _ _ => Resolved response) "why" ["pricing"]))
  = [ [ {| title := "t"; link := "l"; snippet := "s" |} ] ].
Proof.
  intro response.
  rewrite (deep_research_of_one_query_is_the_internet_search
             (Some [("SERPER_API_KEY", " key ")]) (fun _ _ => Resolved response)
             "why" "pricing" "key" eq_refl).
  reflexivity.
Defined.

(* ================================================================== *)
(** * The parser's output is stable *)
(* ================================================================== *)

Module StableFacts.
Import Objects.

Lemma schema_induction (P : schema -> Prop) :
  (forall lo hi, P (ZString lo hi)) ->
  P ZBoolean ->
  (forall lo hi, P (ZNumber lo hi)) ->
  (forall v, P (ZLiteral v)) ->
  (forall values, P (ZEnum values)) ->
  (forall options, Forall P options -> P (ZUnion options)) ->
  (forall inner, P inner -> P (ZOptional inner)) ->
  (forall inner d, P inner -> P (ZDefault inner d)) ->
  (forall element lo hi, P element -> P (ZArray element lo hi)) ->
  (forall shape, Forall (fun ks => P (snd ks)) shape -> P (ZObject shape)) ->
  forall s, P s.
Proof.
  intros Hstr Hbool Hnum Hlit Henum Hunion Hopt Hdef Harr Hobj.
  fix IH 1. intros [lo hi| |lo hi|v|values|options|inner|inner d|element lo hi|shape].
  - apply Hstr.
  - apply Hbool.
  - apply Hnum.
  - apply Hlit.
  - apply Henum.
  - apply Hunion.
    induction options as [|s rest IHrest]; constructor; [apply IH|exact IHrest].
  - apply Hopt, IH.
  - apply Hdef, IH.
  - apply Harr, IH.
  - apply Hobj.
    induction shape as [|[k s] rest IHrest]; constructor; [apply IH|exact IHrest].
Qed.

Lemma plain_parse s v o : plain s = true -> parse s v = Valid o -> o = v.
Proof.
  destruct s; try discriminate; intros _; simpl.
  - destruct v as [[| | |x| |]|]; try discriminate.
    destruct (_ && _); [now intros [= <-]|discriminate].
  - destruct v as [[|b| | | |]|]; try discriminate. now intros [= <-].
  - destruct v as [[| |q| | |]|]; try discriminate.
    destruct (_ && _); [now intros [= <-]|discriminate].
  - destruct v as [v|]; try discriminate.
    destruct (strict_eq v value); [now intros [= <-]|discriminate].
  - destruct v as [[| | |x| |]|]; try discriminate.
    destruct (existsb _ _); [now intros [= <-]|discriminate].
Qed.

Lemma parse_defined : forall s input o,
  parse s (Some input) = Valid o -> exists v', o = Some v'.
Proof.
  induction s using schema_induction; intros input o; simpl.
  - destruct input; try discriminate. destruct (_ && _); [|discriminate].
    intros [= <-]. eauto.
  - destruct input; try discriminate. intros [= <-]. eauto.
  - destruct input; try discriminate. destruct (_ && _); [|discriminate].
    intros [= <-]. eauto.
  - destruct (strict_eq input _); [|discriminate]. intros [= <-]. eauto.
  - destruct input; try discriminate. destruct (existsb _ _); [|discriminate].
    intros [= <-]. eauto.
  - induction H as [|s rest Hs Hrest IH]; simpl; [discriminate|].
    destruct (parse s (Some input)) as [|out] eqn:E.
    + exact IH.
    + intros [= <-]. exact (Hs _ _ E).
  - apply IHs.
  - apply IHs.
  - destruct input; try discriminate. destruct (_ && _); [|discriminate].
    destruct (parse_items _ _ _); [|discriminate]. intros [= <-]. eauto.
  - destruct input; try discriminate.
    destruct (parse_shape _ _ _); [|discriminate]. intros [= <-]. eauto.
Qed.

Lemma has_key_false_In {A : Type} (k k' : string) (v : A) props :
  has_key k props = false -> In (k', v) props -> k' <> k.
Proof.
  unfold has_key. induction props as [|[k1 v1] rest IH]; simpl; [contradiction|].
  destruct (String.eqb_spec k k1) as [->|Hne]; [discriminate|].
  intros Hrest [Heq|Hin].
  - injection Heq as -> _. congruence.
  - now apply IH.
Qed.

(** The parsed object has no key beyond those of the shape. *)
Lemma parse_shape_strips props shape : forall outs k,
  parse_shape parse props shape = Some outs ->
  has_key k shape = false -> lookup k outs = None.
Proof.
  induction shape as [|[k1 s1] rest IH]; intros outs k; simpl.
  - now intros [= <-].
  - destruct (parse s1 (lookup k1 props)) as [|out]; [discriminate|].
    destruct (parse_shape parse props rest) as [outs'|]; [|discriminate].
    intros [= <-]. unfold has_key. simpl.
    destruct (String.eqb_spec k k1) as [->|Hne]; [discriminate|].
    intro Hk. specialize (IH outs' k eq_refl Hk).
    destruct out; simpl; [|exact IH].
    destruct (String.eqb_spec k k1); [contradiction|exact IH].
Qed.

(** The parser reads the input only at the keys of the shape. *)
Lemma parse_shape_ext props props' shape :
  (forall k s, In (k, s) shape -> lookup k props = lookup k props') ->
  parse_shape parse props shape = parse_shape parse props' shape.
Proof.
  induction shape as [|[k1 s1] rest IH]; intro H; simpl; [reflexivity|].
  rewrite (H k1 s1 (or_introl eq_refl)), IH; [reflexivity|].
  intros k s Hin. apply (H k s). now right.
Qed.

Lemma parse_shape_stable props shape : forall outs,
  distinct_keys shape = true ->
  Forall (fun ks => forall input o, parse (snd ks) input = Valid o ->
                                    parse (snd ks) o = Valid o) shape ->
  parse_shape parse props shape = Some outs ->
  parse_shape parse outs shape = Some outs.
Proof.
  induction shape as [|[k1 s1] rest IH]; intros outs Hkeys Hall; simpl.
  - now intros [= <-].
  - simpl in Hkeys. apply andb_prop in Hkeys. destruct Hkeys as [Hk1 Hrest].
    apply negb_true_iff in Hk1.
    inversion Hall as [|? ? Hs1 Hall']; subst. simpl in Hs1.
    destruct (parse s1 (lookup k1 props)) as [|out] eqn:E1; [discriminate|].
    destruct (parse_shape parse props rest) as [outs'|] eqn:E2; [|discriminate].
    intros [= <-].
    assert (Hlook : lookup k1 (match out with
                               | Some v => (k1, v) :: outs'
                               | None => outs'
                               end) = out).
    { destruct out as [v|]; simpl.
      - now rewrite String.eqb_refl.
      - exact (parse_shape_strips _ _ _ _ E2 Hk1). }
    rewrite Hlook, (Hs1 _ _ E1).
    rewrite (parse_shape_ext _ outs' rest).
    + now rewrite (IH outs' Hrest Hall' eq_refl).
    + intros k s Hin. destruct out as [v|]; [|reflexivity]. simpl.
      destruct (String.eqb_spec k k1) as [->|_]; [|reflexivity].
      exfalso. exact (has_key_false_In _ _ _ _ Hk1 Hin eq_refl).
Qed.

Lemma parse_items_stable element :
  (forall input o, parse element input = Valid o -> parse element o = Valid o) ->
  forall items outs,
    parse_items parse element items = Some outs ->
    parse_items parse element outs = Some outs /\ length outs = length items.
Proof.
  intros Helem. induction items as [|x rest IH]; intros outs; simpl.
  - intros [= <-]. now split.
  - destruct (parse element (Some x)) as [|out] eqn:E; [discriminate|].
    destruct (parse_items parse element rest) as [outs'|]; [|discriminate].
    intros [= <-]. destruct (IH outs' eq_refl) as [IH1 IH2].
    destruct (parse_defined _ _ _ E) as [v' ->]. simpl.
    rewrite (Helem _ _ E), IH1, IH2. now split.
Qed.

Lemma regular_fields shape :
  (fix all (fields : list (string * schema)) : bool :=
     match fields with
     | [] => true
     | (_, fs) :: rest => regular fs && all rest
     end) shape = forallb (fun ks => regular (snd ks)) shape.
Proof.
  induction shape as [|[k s] rest IH]; simpl; [reflexivity|now rewrite IH].
Qed.

Lemma parse_union_plain options input o :
  forallb plain options = true ->
  parse_union parse input options = Valid o -> o = input.
Proof.
  induction options as [|s rest IH]; simpl; [discriminate|].
  intros Hreg. apply andb_prop in Hreg. destruct Hreg as [Hs Hrest].
  destruct (parse s input) as [|out] eqn:E.
  - now apply IH.
  - intros [= <-]. exact (plain_parse _ _ _ Hs E).
Qed.

(** What a regular schema's parser returns, the parser accepts and returns
    unchanged. *)
Theorem parse_stable : forall s,
  regular s = true ->
  forall input o, parse s input = Valid o -> parse s o = Valid o.
Proof.
  induction s using schema_induction; intros Hreg input o Hp;
    try (assert (o = input) as ->
           by (eapply plain_parse; [|exact Hp]; reflexivity); exact Hp).
  - (* union *)
    simpl in Hreg. simpl in Hp |- *.
    assert (Ho : o = input) by exact (parse_union_plain _ _ _ Hreg Hp).
    subst o. exact Hp.
  - (* optional *)
    simpl in Hreg. simpl in Hp.
    destruct input as [v|].
    + destruct (parse_defined _ _ _ Hp) as [v' ->]. simpl.
      exact (IHs Hreg _ _ Hp).
    + now injection Hp as <-.
  - (* default *)
    simpl in Hreg. simpl in Hp.
    destruct input as [v|].
    + destruct (parse_defined _ _ _ Hp) as [v' ->]. simpl.
      exact (IHs Hreg _ _ Hp).
    + destruct (parse_defined _ _ _ Hp) as [v' ->]. simpl.
      exact (IHs Hreg _ _ Hp).
  - (* array *)
    simpl in Hreg. simpl in Hp.
    destruct input as [[| | | |items|]|]; try discriminate.
    destruct (at_least lo (length items) && at_most hi (length items)) eqn:Hb;
      [|discriminate].
    destruct (parse_items parse s items) as [outs|] eqn:E; [|discriminate].
    injection Hp as <-. simpl.
    destruct (parse_items_stable s (IHs Hreg) items outs E) as [H1 H2].
    now rewrite H2, Hb, H1.
  - (* object *)
    simpl in Hreg. apply andb_prop in Hreg. destruct Hreg as [Hkeys Hfields].
    rewrite regular_fields in Hfields.
    simpl in Hp.
    destruct input as [[| | | | |props]|]; try discriminate.
    destruct (parse_shape parse props shape) as [outs|] eqn:E; [|discriminate].
    injection Hp as <-. simpl.
    rewrite (parse_shape_stable props shape outs Hkeys); [reflexivity| |exact E].
    rewrite forallb_forall in Hfields. rewrite Forall_forall in H |- *.
    intros ks Hin. apply (H ks Hin). exact (Hfields ks Hin).
Qed.

Lemma phase_schemas_regular n : regular (output_schema n) = true.
Proof. destruct n; reflexivity. Qed.

End StableFacts.

(* ================================================================== *)
(** * Further properties of the workflow *)
(* ================================================================== *)

Module ChainFacts.
Import Objects Chains.

Lemma parsed_is_accepted s reply output :
  regular s = true ->
  parse s (Some reply) = Valid (Some output) -> accepts s (Some output) = true.
Proof.
  intros Hreg Hp. unfold accepts.
  now rewrite (StableFacts.parse_stable s Hreg _ _ Hp).
Qed.

(** What an agent step resolves with is a reply of its agent, parsed by its
    schema. *)
Lemma agent_step_resolved agent s inputData output :
  run_step (AgentStep agent s) inputData = Resolved output ->
  exists prompt reply,
    get "prompt" inputData = Some (JStr prompt)
    /\ generate agent prompt = Resolved reply
    /\ parse s (Some reply) = Valid (Some output).
Proof.
  simpl.
  destruct (get "prompt" inputData) as [[| | |prompt| |]|]; try discriminate.
  destruct (generate agent prompt) as [reply|message] eqn:Hg; [|discriminate].
  destruct (parse s (Some reply)) as [|[out|]] eqn:Hp; try discriminate.
  intros [= <-]. now exists prompt, reply.
Qed.

(** Why an agent step that was handed a prompt fails: the model call
    failed, or the schema refuses the reply. *)
Lemma agent_step_rejected agent s inputData prompt message :
  get "prompt" inputData = Some (JStr prompt) ->
  run_step (AgentStep agent s) inputData = Rejected message ->
  generate agent prompt = Rejected message
  \/ exists reply, generate agent prompt = Resolved reply
                   /\ accepts s (Some reply) = false.
Proof.
  simpl. intros ->.
  destruct (generate agent prompt) as [reply|m] eqn:Hg.
  - destruct (parse s (Some reply)) as [|[out|]] eqn:Hp; try discriminate.
    + intros _. right. exists reply. split; [reflexivity|].
      unfold accepts. now rewrite Hp.
    + destruct (StableFacts.parse_defined _ _ _ Hp) as [v Hv]. discriminate Hv.
  - intros [= <-]. now left.
Qed.

Lemma run_steps_last steps last : forall inputData invoked invoked' output,
  run_steps (steps ++ [last]) inputData invoked = (invoked', Resolved output) ->
  exists before, run_step last before = Resolved output.
Proof.
  induction steps as [|s rest IH]; intros inputData invoked invoked' output; simpl.
  - destruct (run_step last inputData) as [out|m] eqn:E; [|discriminate].
    intros [= _ <-]. now exists inputData.
  - destruct (run_step s inputData) as [out|m]; [|discriminate].
    apply IH.
Qed.

(** A well-fed chain fails only at an agent step, and only because the
    model call failed or the schema refuses the reply. *)
Lemma well_fed_failure steps : forall inputData invoked invoked' message,
  well_fed steps inputData ->
  run_steps steps inputData invoked = (invoked', Rejected message) ->
  exists before agent s prompt,
    invoked' = (invoked ++ before ++ [AgentStep agent s])%list
    /\ (generate agent prompt = Rejected message
        \/ exists reply, generate agent prompt = Resolved reply
                         /\ accepts s (Some reply) = false).
Proof.
  induction steps as [|step rest IH]; intros inputData invoked invoked' message Hfed;
    [discriminate|].
  cbn [run_steps].
  destruct step as [agent s|id description inS outS execute].
  - destruct Hfed as ((prompt & Hprompt) & Hreg & Hrest).
    destruct (run_step (AgentStep agent s) inputData) as [output|m] eqn:E.
    + intro H.
      destruct (agent_step_resolved _ _ _ _ E) as (p & reply & _ & _ & Hp).
      pose proof (parsed_is_accepted _ _ _ Hreg Hp) as Hacc.
      destruct (IH _ _ _ _ (Hrest _ Hacc) H) as (before & a & s' & p' & -> & Hwhy).
      exists (AgentStep agent s :: before), a, s', p'.
      split; [now rewrite <- app_assoc|exact Hwhy].
    + intros [= <- <-].
      exists [], agent, s, prompt. split; [reflexivity|].
      exact (agent_step_rejected _ _ _ _ _ Hprompt E).
  - simpl in Hfed. cbn [run_step]. intro H.
    destruct (IH _ _ _ _ Hfed H) as (before & a & s' & p' & -> & Hwhy).
    exists (FunctionStep id description inS outS execute :: before), a, s', p'.
    split; [now rewrite <- app_assoc|exact Hwhy].
Qed.

(** The pipeline is well fed from any input with a prompt string. *)
Lemma pipeline_well_fed JSON_stringify agents inputData prompt :
  get "prompt" inputData = Some (JStr prompt) ->
  well_fed (pipeline JSON_stringify agents) inputData.
Proof.
  intro Hprompt. unfold pipeline.
  split; [now exists prompt|]. split; [reflexivity|]. intros outI HaccI.
  cbn [well_fed bridgeIntakeToA].
  destruct (string_field_present IntakeOutputSchema outI "enrichedPrompt" HaccI eq_refl)
    as [enriched ->].
  split; [now exists enriched|]. split; [reflexivity|]. intros outA _.
  cbn [well_fed bridgeAtoB].
  split; [eexists; reflexivity|]. split; [reflexivity|]. intros outB _.
  cbn [well_fed bridgeBtoC].
  split; [eexists; reflexivity|]. split; [reflexivity|]. intros outC _.
  cbn [well_fed bridgeCtoD].
  split; [eexists; reflexivity|]. split; [reflexivity|]. intros outD _.
  cbn [well_fed bridgeDtoE].
  split; [eexists; reflexivity|]. split; [reflexivity|]. intros outE _.
  cbn [well_fed bridgeEtoF].
  split; [eexists; reflexivity|]. split; [reflexivity|]. intros outF _.
  exact I.
Qed.

(** An object schema's parser returns an object without any key that is
    not in the shape. *)
Lemma parsed_object_strips shape reply output k :
  parse (ZObject shape) (Some reply) = Valid (Some output) ->
  lookup k shape = None -> get k output = None.
Proof.
  cbn [parse]. destruct reply as [| | | | |input]; try discriminate.
  destruct (parse_shape parse input shape) as [props|] eqn:E; [|discriminate].
  intros [= <-] Hk. simpl.
  apply (StableFacts.parse_shape_strips _ _ _ _ E).
  unfold has_key. now rewrite Hk.
Qed.

(** A run of the assembled workflow is a sequential run of the pipeline. *)
Lemma start_runs_the_pipeline JSON_stringify agents inputData r :
  Workflows.start (createResearchExecutionWorkflow JSON_stringify agents) inputData
    = Some r ->
  run_steps (pipeline JSON_stringify agents) inputData [] = r.
Proof.
  unfold Workflows.start.
  replace (sequential (stepFlow (createResearchExecutionWorkflow JSON_stringify agents)))
    with (Some (pipeline JSON_stringify agents))
    by (symmetry; apply (WorkflowFacts.sequential_then (pipeline JSON_stringify agents))).
  generalize (pipeline JSON_stringify agents). intros steps H.
  now injection H.
Qed.

End ChainFacts.

Import Chains.

(** X14. What a phase schema makes of a model reply it accepts is a clean
    record of the phase: an object with no key beyond the schema's fields
    (whatever else the reply carried is dropped), which the schema accepts
    and returns unchanged when parsed again. *)
Theorem parsed_reply_is_a_clean_record (n : phase) (reply : json) (o : option json) :
  parse (output_schema n) (Some reply) = Valid o ->
  exists props,
    o = Some (JObj props)
    /\ parse (output_schema n) (Some (JObj props)) = Valid (Some (JObj props))
    /\ accepts (output_schema n) (Some (JObj props)) = true
    /\ accepts (output_schema n) (Some reply) = true
    /\ (forall k, field (output_schema n) k = None -> lookup k props = None).
Proof.
  intro Hp.
  pose proof (StableFacts.parse_stable _ (StableFacts.phase_schemas_regular n) _ _ Hp)
    as Hstable.
  assert (Hacc : accepts (output_schema n) (Some reply) = true)
    by (unfold accepts; now rewrite Hp).
  rewrite (PhaseFacts.output_schema_is_object n) in Hp, Hstable, Hacc |- *.
  destruct (ZodFacts.accepts_object_inv _ _ Hacc) as [input [= ->]].
  simpl in Hp.
  destruct (parse_shape parse input (shape_of (output_schema n))) as [props|] eqn:E;
    [|discriminate Hp].
  injection Hp as <-. exists props.
  split; [reflexivity|]. split; [exact Hstable|].
  split; [unfold accepts; now rewrite Hstable|].
  split; [exact Hacc|].
  intros k Hk. apply (StableFacts.parse_shape_strips _ _ _ _ E).
  unfold has_key. unfold field in Hk. simpl in Hk. now rewrite Hk.
Qed.

Lemma parsed_reply_is_a_clean_record_witness :
  exists props,
    parse PhaseAOutputSchema
      (Some (JObj (("confidence", JNum 1) :: Samples.recordA)))
    = Valid (Some (JObj props))
    /\ lookup "confidence" props = None
    /\ accepts PhaseAOutputSchema (Some (JObj props)) = true.
Proof.
  destruct (parse PhaseAOutputSchema
              (Some (JObj (("confidence", JNum 1) :: Samples.recordA))))
    as [|o] eqn:E; [vm_compute in E; discriminate E|].
  destruct (parsed_reply_is_a_clean_record PhA _ _ E)
    as (props & -> & _ & Hacc & _ & Hstrip).
  exists props. split; [reflexivity|]. split; [|exact Hacc].
  apply Hstrip. reflexivity.
Defined.

(** X15. A run of the workflow that succeeds returns a record that the
    Phase F schema accepts: its [phase] is "F", its [timeHorizonDays] is
    30, 60 or 90, its [status] is SUCCESS, PARTIAL_SUCCESS or FAIL, and it
    has no key beyond the Phase F schema's fields. *)
Theorem successful_run_returns_a_phase_F_record
    (JSON_stringify : json -> string) (agents : ResearchExecutionAgents)
    (inputData : json) (invoked : list Step) (output : json) :
  Workflows.start (createResearchExecutionWorkflow JSON_stringify agents) inputData
    = Some (invoked, Resolved output) ->
  accepts PhaseFOutputSchema (Some output) = true
  /\ get "phase" output = Some (JStr "F")
  /\ (exists q, get "timeHorizonDays" output = Some (JNum q)
                /\ (q == 30 \/ q == 60 \/ q == 90)%Q)
  /\ (exists s, get "status" output = Some (JStr s)
                /\ In s ["SUCCESS"; "PARTIAL_SUCCESS"; "FAIL"])
  /\ (forall k, field PhaseFOutputSchema k = None -> get k output = None).
Proof.
  intro Hstart.
  pose proof (ChainFacts.start_runs_the_pipeline _ _ _ _ Hstart) as H.
  assert (Hsplit : pipeline JSON_stringify agents
                   = ([ stepIntake agents; bridgeIntakeToA; stepPhaseA agents;
                        bridgeAtoB JSON_stringify; stepPhaseB agents;
                        bridgeBtoC JSON_stringify; stepPhaseC agents;
                        bridgeCtoD JSON_stringify; stepPhaseD agents;
                        bridgeDtoE JSON_stringify; stepPhaseE agents;
                        bridgeEtoF JSON_stringify ] ++ [stepPhaseF agents])%list)
    by reflexivity.
  rewrite Hsplit in H.
  destruct (ChainFacts.run_steps_last _ _ _ _ _ _ H) as (before & Hlast).
  destruct (ChainFacts.agent_step_resolved _ _ _ _ Hlast) as (prompt & reply & _ & _ & Hp).
  pose proof (ChainFacts.parsed_is_accepted PhaseFOutputSchema _ _ eq_refl Hp) as Hacc.
  split; [exact Hacc|].
  split.
  { apply ZodFacts.accepts_string_literal.
    exact (ZodFacts.accepts_field _ _ _ _ Hacc (PhaseFacts.phase_field PhF)). }
  split.
  { apply ZodFacts.accepts_three_numbers.
    exact (ZodFacts.accepts_field _ _ _ _ Hacc (PhaseFacts.timeHorizonDays_field PhF)). }
  split.
  { apply ZodMore.accepts_enum.
    apply (ZodFacts.accepts_field _ _ _ _ Hacc). reflexivity. }
  intros k Hk.
  exact (ChainFacts.parsed_object_strips (shape_of PhaseFOutputSchema) _ _ _ Hp Hk).
Qed.

Lemma successful_run_returns_a_phase_F_record_witness :
  let agents := createPhaseAgentsWithMemory Samples.sample_model in
  exists invoked output,
    Workflows.start (createResearchExecutionWorkflow Samples.sample_stringify agents)
      (JObj [("prompt", JStr "Validate demand for a $25k/month B2B tool in 60 days")])
    = Some (invoked, Resolved output)
    /\ accepts PhaseFOutputSchema (Some output) = true.
Proof.
  intro agents.
  destruct (Workflows.start (createResearchExecutionWorkflow Samples.sample_stringify agents)
              (JObj [("prompt", JStr "Validate demand for a $25k/month B2B tool in 60 days")]))
    as [[invoked [output|message]]|] eqn:E.
  - exists invoked, output. split; [reflexivity|].
    exact (proj1 (successful_run_returns_a_phase_F_record _ _ _ _ _ E)).
  - vm_compute in E. discriminate E.
  - vm_compute in E. discriminate E.
Defined.

(** X16. A run started with a prompt string never stops at a bridge and
    never hands an agent anything but a prompt string.  When it fails, the
    last step started is an agent step, and the reason is that agent's
    model call failing or its reply being refused by the step's schema;
    there is no retry: nothing runs after the failure. *)
Theorem run_fails_only_at_an_agent_step
    (JSON_stringify : json -> string) (agents : ResearchExecutionAgents)
    (inputData : json) (prompt : string) (invoked : list Step) (message : string) :
  get "prompt" inputData = Some (JStr prompt) ->
  Workflows.start (createResearchExecutionWorkflow JSON_stringify agents) inputData
    = Some (invoked, Rejected message) ->
  exists before agent s agent_prompt k,
    invoked = (before ++ [AgentStep agent s])%list
    /\ invoked = firstn k (pipeline JSON_stringify agents)
    /\ In (AgentStep agent s) (pipeline JSON_stringify agents)
    /\ (generate agent agent_prompt = Rejected message
        \/ exists reply, generate agent agent_prompt = Resolved reply
                         /\ accepts s (Some reply) = false).
Proof.
  intros Hprompt Hstart.
  pose proof (ChainFacts.start_runs_the_pipeline _ _ _ _ Hstart) as H.
  destruct (ChainFacts.well_fed_failure _ _ _ _ _
              (ChainFacts.pipeline_well_fed JSON_stringify agents _ _ Hprompt) H)
    as (before & agent & s & p & Hinv & Hwhy).
  simpl in Hinv.
  destruct (WorkflowFacts.run_steps_prefix (pipeline JSON_stringify agents) inputData [])
    as [k Hk].
  rewrite H in Hk. simpl in Hk.
  exists before, agent, s, p, k.
  split; [exact Hinv|]. split; [exact Hk|]. split; [|exact Hwhy].
  rewrite <- (firstn_skipn k (pipeline JSON_stringify agents)).
  apply in_or_app. left. rewrite <- Hk, Hinv.
  apply in_or_app. right. now left.
Qed.

Lemma run_fails_only_at_an_agent_step_witness :
  let refusing := fun id prompt : string =>
    if String.eqb id "phase-c-agent" then Resolved (JObj Samples.recordB)
    else Samples.sample_model id prompt in
  let agents := createPhaseAgentsWithMemory refusing in
  exists invoked message before agent s,
    Workflows.start (createResearchExecutionWorkflow Samples.sample_stringify agents)
      (JObj [("prompt", JStr "go")])
    = Some (invoked, Rejected message)
    /\ length invoked = 7%nat
    /\ invoked = (before ++ [AgentStep agent s])%list
    /\ In (AgentStep agent s) (pipeline Samples.sample_stringify agents).
Proof.
  intros refusing agents.
  destruct (Workflows.start
              (createResearchExecutionWorkflow Samples.sample_stringify agents)
              (JObj [("prompt", JStr "go")]))
    as [[invoked [output|message]]|] eqn:E.
  - vm_compute in E. discriminate E.
  - destruct (run_fails_only_at_an_agent_step Samples.sample_stringify agents
                (JObj [("prompt", JStr "go")]) "go" invoked message eq_refl E)
      as (before & agent & s & p & k & Hinv & _ & Hin & _).
    exists invoked, message, before, agent, s.
    split; [reflexivity|]. split; [|split; [exact Hinv|exact Hin]].
    pose proof (f_equal (option_map (fun r => length (fst r))) E) as Hlen.
    vm_compute in Hlen. now injection Hlen.
  - vm_compute in E. discriminate E.
Defined.

(* ================================================================== *)
(** * Further properties of the research agent's tools *)
(* ================================================================== *)

Module StringFacts.

Lemma length_append (a b : string) :
  String.length (a ++ b) = (String.length a + String.length b)%nat.
Proof. induction a as [|c rest IH]; simpl; [reflexivity|now rewrite IH]. Qed.

Lemma prefix_append (a b : string) : String.prefix a (a ++ b) = true.
Proof.
  induction a as [|c rest IH]; simpl.
  - now destruct b.
  - destruct (ascii_dec c c) as [_|Hne]; [exact IH|contradiction].
Qed.

Lemma prefix_refl (a : string) : String.prefix a a = true.
Proof.
  induction a as [|c rest IH]; simpl; [reflexivity|].
  destruct (ascii_dec c c) as [_|Hne]; [exact IH|contradiction].
Qed.

End StringFacts.

(** X17. The format-research-query tool keeps the question as the
    beginning of the query it returns and stamps it with the time of the
    call.  The query is the question itself exactly when there is no
    context or the context is the empty string; any other context is
    appended as " (context: ...)", which makes the query longer by the
    context and twelve characters. *)
Theorem format_query_keeps_the_question
    (now question : string) (context : option string) :
  let out := formatQueryTool.execute now question context in
  formatQueryTool.formattedAt out = now
  /\ String.prefix question (formatQueryTool.query out) = true
  /\ (formatQueryTool.query out = question <-> context = None \/ context = Some "")
  /\ (forall c, context = Some c -> c <> "" ->
        formatQueryTool.query out = question ++ " (context: " ++ c ++ ")"
        /\ String.length (formatQueryTool.query out)
           = (String.length question + String.length c + 12)%nat).
Proof.
  unfold formatQueryTool.execute.
  cbn [formatQueryTool.query formatQueryTool.formattedAt].
  split; [reflexivity|].
  assert (Hlen : forall c,
             String.length (question ++ " (context: " ++ c ++ ")")
             = (String.length question + String.length c + 12)%nat).
  { intro c. rewrite StringFacts.length_append.
    change (" (context: " ++ c ++ ")") with (" (context: " ++ (c ++ ")")).
    rewrite (StringFacts.length_append " (context: "), StringFacts.length_append.
    simpl. lia. }
  destruct context as [c|].
  - destruct (String.eqb_spec c "") as [->|Hne].
    + split; [apply StringFacts.prefix_refl|].
      split; [split; [now right|reflexivity]|].
      intros c [= <-] Hc. contradiction.
    + split; [apply StringFacts.prefix_append|].
      split.
      * split.
        -- intro H. apply (f_equal String.length) in H. rewrite Hlen in H. lia.
        -- intros [H|[= H]]; [discriminate H|contradiction].
      * intros c' [= <-] _. split; [reflexivity|apply Hlen].
  - split; [apply StringFacts.prefix_refl|].
    split; [split; [now left|reflexivity]|].
    intros c H. discriminate H.
Qed.

(** X18. Where the run-workflow tool finds its workflow.  A handle given at
    construction is used as it is.  A getter is called when the tool runs,
    so a workflow assigned after the tool was built is found; and what the
    getter returns is final: when it returns null the tool does not fall
    back on the context.  With no source the tool asks the context's
    [mastra] for "researchExecution".  The result has [run: false] exactly
    when no workflow is found, and then the tool has made no call. *)
Theorem workflow_is_resolved_at_call_time
    (source : WorkflowSource) (prompt : string) (context : Context) :
  (forall h, resolveWorkflow (SourceHandle h) context = Some h)
  /\ (forall (cell : option ResearchExecutionWorkflowHandle),
        resolveWorkflow (SourceGetter (fun _ => cell)) context = cell)
  /\ (forall m lookup_workflow,
        mastra context = Some m -> getWorkflow m = Some lookup_workflow ->
        resolveWorkflow SourceNull context = Some (lookup_workflow "researchExecution"))
  /\ (resolveWorkflow source context = None ->
        ResearchAgent.execute source prompt context
        = {| elapsed_ms := 0;
             calls := [];
             settled := Resolved
               {| run := false;
                  tool_status := None;
                  tool_result := None;
                  tool_error := Some "Workflow not available in this context";
                  message := "The pipeline could not be started (workflow not available). Please try again or use Research AI." |} |})
  /\ (forall r, settled (ResearchAgent.execute source prompt context) = Resolved r ->
        (run r = false <-> resolveWorkflow source context = None)).
Proof.
  split; [reflexivity|]. split; [reflexivity|].
  split; [intros m lw Hm Hg; simpl; now rewrite Hm, Hg|].
  split.
  - intro H. unfold ResearchAgent.execute. now rewrite H.
  - intros r. unfold ResearchAgent.execute.
    destruct (resolveWorkflow source context) as [workflow|].
    + destruct (createRun workflow tt) as [run_|message]; [|discriminate].
      destruct (ResearchAgent.start run_ prompt (request_context (runId run_)))
        as [elapsed [outcome|message]]; simpl; [|discriminate].
      intros [= <-]. simpl. split; discriminate.
    + simpl. intros [= <-]. simpl. now split.
Qed.

(** X19. The report the run-workflow tool makes of an outcome.  It always
    has [run: true], the outcome's status and a non-empty message.  It
    carries a result only for the status "success" and an error only for
    the status "failed", never both: the result of a run with any other
    status is dropped, and so is the error of a run that did not fail.
    The message is the fixed success message exactly for the status
    "success". *)
Theorem report_carries_result_or_error (outcome : Outcome) :
  let r := report outcome in
  run r = true
  /\ tool_status r = Some (ResearchAgent.status outcome)
  /\ message r <> ""
  /\ (forall v, tool_result r = Some v ->
        ResearchAgent.status outcome = "success"
        /\ ResearchAgent.result outcome = Some v /\ tool_error r = None)
  /\ (forall e, tool_error r = Some e ->
        ResearchAgent.status outcome = "failed" /\ tool_result r = None
        /\ exists err, ResearchAgent.error outcome = Some err
                       /\ e = nullish (error_message err) (error_string err))
  /\ (ResearchAgent.status outcome = "success" ->
        tool_result r = ResearchAgent.result outcome /\ tool_error r = None)
  /\ (message r
      = "Pipeline completed successfully (Phases A→F). Final result is below; tell the user in this chat."
      <-> ResearchAgent.status outcome = "success").
Proof.
  unfold report.
  cbn [run tool_status tool_result tool_error message].
  set (st := ResearchAgent.status outcome).
  split; [reflexivity|]. split; [reflexivity|].
  destruct (String.eqb_spec st "success") as [Hs|Hs].
  - assert (Hf : String.eqb st "failed" = false) by (rewrite Hs; reflexivity).
    rewrite Hf.
    split; [discriminate|].
    split; [intros v Hv; auto|].
    split; [discriminate|].
    split; [auto|].
    split; auto.
  - split.
    { destruct (String.eqb st "failed"); [|discriminate].
      destruct (ResearchAgent.error outcome) as [err|]; [|discriminate].
      destruct (String.eqb _ ""); discriminate. }
    split; [discriminate|].
    split.
    { intros e He.
      destruct (String.eqb_spec st "failed") as [Hfl|]; [|discriminate He].
      destruct (ResearchAgent.error outcome) as [err|]; [|discriminate He].
      injection He as <-. repeat split; try assumption. now exists err. }
    split; [contradiction|].
    split; [|contradiction].
    intro Hm. exfalso.
    destruct (String.eqb st "failed").
    + destruct (ResearchAgent.error outcome) as [err|].
      * destruct (String.eqb _ ""); discriminate Hm.
      * discriminate Hm.
    + discriminate Hm.
Qed.

(** X20. What the run-workflow tool does with a workflow.  It creates one
    run and starts it once, with the prompt unchanged and a request context
    whose thread id, resource id and memory scope are all the run's id.  It
    catches nothing: when creating the run fails the tool fails with the
    same error and starts nothing, and when the run's start rejects the
    tool rejects with the same error; otherwise it settles, when the start
    settles, with the report of its outcome. *)
Theorem tool_runs_once_and_catches_nothing
    (workflow : ResearchExecutionWorkflowHandle) (prompt : string) (context : Context) :
  let e := ResearchAgent.execute (SourceHandle workflow) prompt context in
  match createRun workflow tt with
  | Rejected error =>
      settled e = Rejected error /\ calls e = [CallCreateRun]
  | Resolved run_ =>
      let requestContext := request_context (runId run_) in
      let waited := ResearchAgent.start run_ prompt requestContext in
      calls e = [CallCreateRun; CallStart prompt requestContext]
      /\ lookup MASTRA_THREAD_ID_KEY requestContext = Some (JStr (runId run_))
      /\ lookup MASTRA_RESOURCE_ID_KEY requestContext = Some (JStr (runId run_))
      /\ lookup "MastraMemory" requestContext
         = Some (JObj [ ("thread", JObj [("id", JStr (runId run_))]);
                        ("resourceId", JStr (runId run_)) ])
      /\ elapsed_ms e = fst waited
      /\ match snd waited with
         | Rejected error => settled e = Rejected error
         | Resolved outcome =>
             settled e = Resolved (report outcome)
             /\ run (report outcome) = true
         end
  end.
Proof.
  unfold ResearchAgent.execute. simpl resolveWorkflow. cbv iota beta.
  destruct (createRun workflow tt) as [run_|error]; [|now split].
  cbv zeta.
  destruct (ResearchAgent.start run_ prompt (request_context (runId run_)))
    as [elapsed [outcome|error]]; simpl; repeat split; reflexivity.
Qed.
